(** * boomer: derived statistics, snapshot decoding and output sinks

    A shallow embedding of [output.go]: the six derivation functions, the
    decoder [convertData] / [deserializeStatsEntry], and the [OnEvent]
    methods of [ConsoleOutput] and [PrometheusPusherOutput], followed by the
    properties the specification states about them.

    Conventions.
    - a Go [int64] is a [Z]; every operation that can overflow is written
      with its two's-complement wrap-around ([wrap64]);
    - a Go [float64] is a primitive binary64 float;
    - a Go [map[int64]int64] is a [gmap Z Z] (a nil map and an empty map are
      both [∅]: the code only ranges over, indexes and measures its maps);
    - a function returning [(T, error)] returns a pair of options, as the
      Go function returns a pair of a pointer and an error that may each be
      nil. *)

From Stdlib Require Import ZArith Lia Floats Uint63 Ascii String.
From stdpp Require Import base gmap strings list fin_maps sorting pretty.

Local Open Scope Z_scope.

(** ** Machine integers *)

Module Int64.

Definition min_int : Z := - 2 ^ 63.
Definition max_int : Z := 2 ^ 63 - 1.

Definition in_range (z : Z) : Prop := min_int ≤ z ≤ max_int.

(** Two's-complement reduction of a mathematical integer to 64 bits. *)
Definition wrap64 (z : Z) : Z := (z + 2 ^ 63) `mod` 2 ^ 64 - 2 ^ 63.

(** [x - y] on int64. *)
Definition sub (x y : Z) : Z := wrap64 (x - y).

(** [x / y] on int64 for [y ≠ 0]: the quotient truncates toward zero; the
    one overflowing quotient, [min_int / -1], wraps back to [min_int]. *)
Definition div (x y : Z) : Z := wrap64 (x ÷ y).

(** [float64(x)] for an int64 [x]: the nearest binary64, ties to even. *)
Definition to_float64 (x : Z) : float :=
  if decide (x = min_int) then (-9223372036854775808)%float
  else if decide (x < 0) then PrimFloat.opp (PrimFloat.of_uint63 (Uint63.of_Z (- x)))
  else PrimFloat.of_uint63 (Uint63.of_Z x).

End Int64.

(** ** Derivation functions *)

(** The loop [for _, k := range sortedKeys { ... }] of
    [getMedianResponseTime]: [medianResponseTime] is still 0 when the loop is
    entered, and the only assignment to it is followed by [break]. *)
Fixpoint medianLoop (responseTimes : gmap Z Z) (sortedKeys : list Z) (pos : Z) : Z :=
  match sortedKeys with
  | [] => 0
  | k :: rest =>
      let c := default 0 (responseTimes !! k) in
      if decide (pos < c) then k
      else medianLoop responseTimes rest (Int64.sub pos c)
  end.

(** [getMedianResponseTime], with the order in which
    [for k := range responseTimes] visits the keys made explicit: Go leaves
    that order unspecified, so [rangeKeys] may be any enumeration of the keys.
    [sort.Slice] with the comparison [<] is rendered by a merge sort. *)
Definition getMedianResponseTimeIn (rangeKeys : list Z)
    (numRequests : Z) (responseTimes : gmap Z Z) : Z :=
  if decide (size responseTimes ≠ 0%nat) then
    let pos := Int64.div (Int64.sub numRequests 1) 2 in
    let sortedKeys := merge_sort Z.le rangeKeys in
    medianLoop responseTimes sortedKeys pos
  else 0.

(** One run of [getMedianResponseTime]: the keys are visited in the order of
    [map_to_list]. *)
Definition getMedianResponseTime (numRequests : Z) (responseTimes : gmap Z Z) : Z :=
  getMedianResponseTimeIn (map_to_list responseTimes).*1 numRequests responseTimes.

Definition getAvgResponseTime (numRequests totalResponseTime : Z) : float :=
  if decide (numRequests ≠ 0) then
    PrimFloat.div (Int64.to_float64 totalResponseTime) (Int64.to_float64 numRequests)
  else 0%float.

Definition getAvgContentLength (numRequests totalContentLength : Z) : Z :=
  if decide (numRequests ≠ 0) then Int64.div totalContentLength numRequests
  else 0.

(** [int64(len(m))]: a Go map holds fewer than 2^63 entries, so the
    conversion from [int] does not wrap. *)
Definition len64 (m : gmap Z Z) : Z := Z.of_nat (size m).

Definition getCurrentRps (numRequests : Z) (numReqsPerSecond : gmap Z Z) : Z :=
  let numReqsPerSecondLength := len64 numReqsPerSecond in
  if decide (numReqsPerSecondLength ≠ 0) then Int64.div numRequests numReqsPerSecondLength
  else 0.

Definition getCurrentFailPerSec (numFailures : Z) (numFailPerSecond : gmap Z Z) : Z :=
  let numFailPerSecondLength := len64 numFailPerSecond in
  if decide (numFailPerSecondLength ≠ 0) then Int64.div numFailures numFailPerSecondLength
  else 0.

Definition getTotalFailRatio (totalRequests totalFailures : Z) : float :=
  if decide (totalRequests = 0) then 0%float
  else PrimFloat.div (Int64.to_float64 totalFailures) (Int64.to_float64 totalRequests).

(** ** The raw event: dynamically typed values

    The argument of [OnEvent] and [convertData] is a
    [map[string]interface{}]. The dynamic values considered are the ones a
    report can hold: the nil interface, booleans, integers of the types
    [int], [int32] and [int64], [float64], strings, non-nil
    [[]interface{}] slices, non-nil [map[string]interface{}] and
    [map[int64]int64] maps, and (standing for every value [encoding/json]
    refuses) a function value. Strings are taken to be valid UTF-8. *)
#[warnings="-register-all"]
Inductive value : Type :=
| VNil
| VBool (b : bool)
| VInt (n : Z)
| VInt32 (n : Z)
| VInt64 (n : Z)
| VFloat64 (f : float)
| VString (s : string)
| VSlice (elems : list value)
| VMap (entries : gmap string value)
| VMapInt64 (entries : gmap Z Z)
| VFunc.

(** Error values. [ErrorString] is what [fmt.Errorf] builds; the other three
    are the errors of [encoding/json] that can arise here, with the part of
    their payload that identifies the offending value and field. *)
Inductive error : Type :=
| ErrorString (msg : string)
| UnsupportedTypeError
| UnsupportedValueError
| UnmarshalTypeError (jsonValue : string) (goField : string).

Inductive result (A : Type) : Type :=
| Ok (a : A)
| Err (e : error).
Arguments Ok {A} a.
Arguments Err {A} e.

(** ** encoding/json

    The byte string that [json.Marshal] hands to [json.Unmarshal] is
    represented by the JSON text it spells, as a tree: [Marshal] always
    writes well-formed JSON, so the syntax check of [Unmarshal] cannot
    fail, and everything the decoder does is determined by the tree. *)
Module Json.

(** A number literal is either an integer literal (a sign and digits) or the
    literal written for a [float64]. *)
Inductive number : Type :=
| IntLit (n : Z)
| FloatLit (f : float).

#[warnings="-register-all"]
Inductive json : Type :=
| JNull
| JBool (b : bool)
| JNumber (n : number)
| JString (s : string)
| JArray (elems : list json)
| JObject (members : list (string * json)).

(** Object members are written in increasing byte order of their keys. *)
Definition key_le (x y : string * json) : Prop := String.leb x.1 y.1 = true.

Global Instance key_le_dec x y : Decision (key_le x y) :=
  decide (String.leb x.1 y.1 = true).

Definition sortMembers (members : list (string * json)) : list (string * json) :=
  merge_sort key_le members.

(** Marshalling stops at the first member that cannot be encoded. *)
Fixpoint sequenceMembers (ms : list (string * result json)) : result (list (string * json)) :=
  match ms with
  | [] => Ok []
  | (k, Err e) :: _ => Err e
  | (k, Ok j) :: rest =>
      match sequenceMembers rest with
      | Ok js => Ok ((k, j) :: js)
      | Err e => Err e
      end
  end.

Definition key_res_le (x y : string * result json) : Prop := String.leb x.1 y.1 = true.

Global Instance key_res_le_dec x y : Decision (key_res_le x y) :=
  decide (String.leb x.1 y.1 = true).

(** [strconv.FormatInt(n, 10)], as used for the keys of a [map[int64]int64]. *)
Definition FormatInt (n : Z) : string := pretty n.

(** [json.Marshal]. *)
Fixpoint Marshal (v : value) : result json :=
  match v with
  | VNil => Ok JNull
  | VBool b => Ok (JBool b)
  | VInt n | VInt32 n | VInt64 n => Ok (JNumber (IntLit n))
  | VFloat64 f =>
      if PrimFloat.is_nan f || PrimFloat.is_infinity f then Err UnsupportedValueError
      else Ok (JNumber (FloatLit f))
  | VString s => Ok (JString s)
  | VSlice elems =>
      (fix marshalElems (l : list value) : result json :=
         match l with
         | [] => Ok (JArray [])
         | x :: rest =>
             match Marshal x with
             | Err e => Err e
             | Ok j =>
                 match marshalElems rest with
                 | Ok (JArray js) => Ok (JArray (j :: js))
                 | other => other
                 end
             end
         end) elems
  | VMap entries =>
      match sequenceMembers (merge_sort key_res_le (map_to_list (Marshal <$> entries))) with
      | Ok ms => Ok (JObject ms)
      | Err e => Err e
      end
  | VMapInt64 entries =>
      Ok (JObject (sortMembers
            ((λ kv, (FormatInt kv.1, JNumber (IntLit kv.2))) <$> map_to_list entries)))
  | VFunc => Err UnsupportedTypeError
  end.

End Json.

(** ** statsEntry and its decoding *)

(** Modelled from the spec: the declaration of the struct [statsEntry], which
    output.go embeds and fills but does not declare. The field names and
    types are the ones output.go reads ([stat.Method], [entry.NumRequests],
    the [map[int64]int64] arguments of the derivation functions, ...); the
    JSON tags are the wire names listed in the spec's external interfaces. *)
Record statsEntry : Type := {
  Method : string;
  Name : string;
  NumRequests : Z;
  NumFailures : Z;
  ResponseTimes : gmap Z Z;
  TotalResponseTime : Z;
  TotalContentLength : Z;
  MinResponseTime : Z;
  MaxResponseTime : Z;
  NumReqsPerSec : gmap Z Z;
  NumFailPerSec : gmap Z Z
}.

(** The value of [statsEntry{}]. *)
Definition zeroStatsEntry : statsEntry :=
  {| Method := ""; Name := ""; NumRequests := 0; NumFailures := 0;
     ResponseTimes := ∅; TotalResponseTime := 0; TotalContentLength := 0;
     MinResponseTime := 0; MaxResponseTime := 0;
     NumReqsPerSec := ∅; NumFailPerSec := ∅ |}.

Module Decode.
Import Json.

Inductive field : Type :=
| FMethod | FName | FNumRequests | FNumFailures | FResponseTimes
| FTotalResponseTime | FTotalContentLength | FMinResponseTime
| FMaxResponseTime | FNumReqsPerSec | FNumFailPerSec.

Definition fields : list field :=
  [FMethod; FName; FNumRequests; FNumFailures; FResponseTimes;
   FTotalResponseTime; FTotalContentLength; FMinResponseTime;
   FMaxResponseTime; FNumReqsPerSec; FNumFailPerSec].

Definition tag (f : field) : string :=
  match f with
  | FMethod => "method"
  | FName => "name"
  | FNumRequests => "num_requests"
  | FNumFailures => "num_failures"
  | FResponseTimes => "response_times"
  | FTotalResponseTime => "total_response_time"
  | FTotalContentLength => "total_content_length"
  | FMinResponseTime => "min_response_time"
  | FMaxResponseTime => "max_response_time"
  | FNumReqsPerSec => "num_reqs_per_sec"
  | FNumFailPerSec => "num_fail_per_sec"
  end.

Definition upper (c : ascii) : ascii :=
  let n := N_of_ascii c in
  if decide (97 ≤ n ≤ 122)%N then ascii_of_N (n - 32) else c.

(** Case folding of an object key, as far as it decides equality with a tag
    made of ASCII letters: ASCII letters go to upper case, and the two other
    runes whose fold class contains an ASCII letter, U+017F and U+212A (given
    by their UTF-8 bytes), go to [S] and [K]; every other byte is kept. *)
Fixpoint foldName (s : string) : string :=
  match s with
  | EmptyString => EmptyString
  | String c rest =>
      match s with
      | String "197"%char (String "191"%char r) => String "S"%char (foldName r)
      | String "226"%char (String "132"%char (String "170"%char r)) =>
          String "K"%char (foldName r)
      | _ => String (upper c) (foldName rest)
      end
  end.

(** The field an object key selects: the one whose tag is the key, else the
    one whose tag equals the key up to case folding, else none (the member
    is then skipped). *)
Definition findField (key : string) : option field :=
  match list_find (λ f, tag f = key) fields with
  | Some (_, f) => Some f
  | None => snd <$> list_find (λ f, foldName (tag f) = foldName key) fields
  end.

(** The word by which [UnmarshalTypeError] names a JSON value. *)
Definition kindOf (j : json) : string :=
  match j with
  | JNull => "null"
  | JBool _ => "bool"
  | JNumber _ => "number"
  | JString _ => "string"
  | JArray _ => "array"
  | JObject _ => "object"
  end.

Definition saveError (saved : option error) (e : option error) : option error :=
  match saved with
  | Some _ => saved
  | None => e
  end.

Definition digit (c : ascii) : option Z :=
  let n := Z.of_N (N_of_ascii c) in
  if decide (48 ≤ n ≤ 57) then Some (n - 48) else None.

Fixpoint parseDigits (s : string) (acc : Z) : option Z :=
  match s with
  | EmptyString => Some acc
  | String c rest =>
      match digit c with
      | Some d => parseDigits rest (10 * acc + d)
      | None => None
      end
  end.

(** [strconv.ParseInt(s, 10, 64)]: an optional sign, at least one decimal
    digit, and a value that fits an int64. *)
Definition ParseInt (s : string) : option Z :=
  let '(neg, body) :=
    match s with
    | String "+"%char r => (false, r)
    | String "-"%char r => (true, r)
    | _ => (false, s)
    end in
  match body with
  | EmptyString => None
  | _ =>
      match parseDigits body 0 with
      | Some n =>
          let z := if neg : bool then - n else n in
          if decide (Int64.min_int ≤ z ≤ Int64.max_int) then Some z else None
      | None => None
      end
  end.

(** The shortest decimal that reads back as the integral float [x], whose
    neighbours lie at [lower2 / 2] and [upper2 / 2] around it: the multiple
    of the largest power of ten between the bounds (which count as inside when
    the mantissa is even), the nearer of the two around [x] when both fit,
    the even one on a tie. *)
Fixpoint shortestInt (k : nat) (x lower2 upper2 : Z) (inclusive : bool) : Z :=
  match k with
  | O => x
  | S k' =>
      let p := 10 ^ Z.of_nat k in
      let down := x `div` p * p in
      let up := down + p in
      let inside y :=
        if inclusive then bool_decide (lower2 ≤ 2 * y ≤ upper2)
        else bool_decide (lower2 < 2 * y < upper2) in
      let roundUp :=
        bool_decide (p < 2 * (x - down)) ||
        (bool_decide (2 * (x - down) = p) && Z.odd (x `div` p)) in
      match inside down, inside up with
      | true, true => if roundUp then up else down
      | true, false => down
      | false, true => up
      | false, false => shortestInt k' x lower2 upper2 inclusive
      end
  end.

(** The integer that the literal written for the float [f] spells, when that
    literal is an integer literal. The encoder writes a finite float in
    plain notation below 1e21, with the fewest digits that read back as
    [f], and in exponent notation from 1e21 on; the plain literal of a
    float with a fraction has a fraction. An integral float below 2^53 is
    written with its own digits. *)
Definition floatLitInt (f : float) : option Z :=
  match Prim2SF f with
  | S754_zero _ => Some 0
  | S754_finite s m e =>
      let magnitude :=
        if decide (e ≤ 0) then
          if decide (Z.pos m `mod` 2 ^ (- e) = 0) then Some (Z.pos m `div` 2 ^ (- e))
          else None
        else
          let x := Z.pos m * 2 ^ e in
          if decide (10 ^ 21 ≤ x) then None
          else
            let below := if decide (Z.pos m = 2 ^ 52) then 2 ^ (e - 1) else 2 ^ e in
            Some (shortestInt 21 x (2 * x - below) (2 * x + 2 ^ e) (Z.even (Z.pos m))) in
      match magnitude with
      | Some n => Some (if s : bool then - n else n)
      | None => None
      end
  | _ => None
  end.

(** Storing a JSON value into a [string]. Each of the three stores returns
    the new content and the type error it raises, if any; [null] leaves a
    string or an integer as it is and resets a map to nil. *)
Definition storeString (where_ : string) (j : json) (old : string) : string * option error :=
  match j with
  | JNull => (old, None)
  | JString s => (s, None)
  | _ => (old, Some (UnmarshalTypeError (kindOf j) where_))
  end.

Definition storeInt64 (where_ : string) (j : json) (old : Z) : Z * option error :=
  match j with
  | JNull => (old, None)
  | JNumber (IntLit n) =>
      if decide (Int64.min_int ≤ n ≤ Int64.max_int) then (n, None)
      else (old, Some (UnmarshalTypeError "number" where_))
  | JNumber (FloatLit f) =>
      match floatLitInt f with
      | Some n =>
          if decide (Int64.min_int ≤ n ≤ Int64.max_int) then (n, None)
          else (old, Some (UnmarshalTypeError "number" where_))
      | None => (old, Some (UnmarshalTypeError "number" where_))
      end
  | _ => (old, Some (UnmarshalTypeError (kindOf j) where_))
  end.

(** The members of an object stored into a [map[int64]int64]: the element is
    decoded into a zero int64, then the key is parsed; a member whose key
    does not parse is dropped with an error. *)
Fixpoint storeMapMembers (where_ : string) (members : list (string * json))
    (m : gmap Z Z) (saved : option error) : gmap Z Z * option error :=
  match members with
  | [] => (m, saved)
  | (k, j) :: rest =>
      let '(elem, e) := storeInt64 where_ j 0 in
      let saved := saveError saved e in
      match ParseInt k with
      | Some n => storeMapMembers where_ rest (<[n := elem]> m) saved
      | None =>
          storeMapMembers where_ rest m
            (saveError saved (Some (UnmarshalTypeError "number" where_)))
      end
  end.

Definition storeMap (where_ : string) (j : json) (old : gmap Z Z) : gmap Z Z * option error :=
  match j with
  | JNull => (∅, None)
  | JObject members => storeMapMembers where_ members old None
  | _ => (old, Some (UnmarshalTypeError (kindOf j) where_))
  end.

Definition storeField (f : field) (j : json) (x : statsEntry) : statsEntry * option error :=
  let w := tag f in
  match f with
  | FMethod =>
      let '(v, e) := storeString w j (Method x) in
      ({| Method := v; Name := Name x; NumRequests := NumRequests x;
          NumFailures := NumFailures x; ResponseTimes := ResponseTimes x;
          TotalResponseTime := TotalResponseTime x;
          TotalContentLength := TotalContentLength x;
          MinResponseTime := MinResponseTime x; MaxResponseTime := MaxResponseTime x;
          NumReqsPerSec := NumReqsPerSec x; NumFailPerSec := NumFailPerSec x |}, e)
  | FName =>
      let '(v, e) := storeString w j (Name x) in
      ({| Method := Method x; Name := v; NumRequests := NumRequests x;
          NumFailures := NumFailures x; ResponseTimes := ResponseTimes x;
          TotalResponseTime := TotalResponseTime x;
          TotalContentLength := TotalContentLength x;
          MinResponseTime := MinResponseTime x; MaxResponseTime := MaxResponseTime x;
          NumReqsPerSec := NumReqsPerSec x; NumFailPerSec := NumFailPerSec x |}, e)
  | FNumRequests =>
      let '(v, e) := storeInt64 w j (NumRequests x) in
      ({| Method := Method x; Name := Name x; NumRequests := v;
          NumFailures := NumFailures x; ResponseTimes := ResponseTimes x;
          TotalResponseTime := TotalResponseTime x;
          TotalContentLength := TotalContentLength x;
          MinResponseTime := MinResponseTime x; MaxResponseTime := MaxResponseTime x;
          NumReqsPerSec := NumReqsPerSec x; NumFailPerSec := NumFailPerSec x |}, e)
  | FNumFailures =>
      let '(v, e) := storeInt64 w j (NumFailures x) in
      ({| Method := Method x; Name := Name x; NumRequests := NumRequests x;
          NumFailures := v; ResponseTimes := ResponseTimes x;
          TotalResponseTime := TotalResponseTime x;
          TotalContentLength := TotalContentLength x;
          MinResponseTime := MinResponseTime x; MaxResponseTime := MaxResponseTime x;
          NumReqsPerSec := NumReqsPerSec x; NumFailPerSec := NumFailPerSec x |}, e)
  | FResponseTimes =>
      let '(v, e) := storeMap w j (ResponseTimes x) in
      ({| Method := Method x; Name := Name x; NumRequests := NumRequests x;
          NumFailures := NumFailures x; ResponseTimes := v;
          TotalResponseTime := TotalResponseTime x;
          TotalContentLength := TotalContentLength x;
          MinResponseTime := MinResponseTime x; MaxResponseTime := MaxResponseTime x;
          NumReqsPerSec := NumReqsPerSec x; NumFailPerSec := NumFailPerSec x |}, e)
  | FTotalResponseTime =>
      let '(v, e) := storeInt64 w j (TotalResponseTime x) in
      ({| Method := Method x; Name := Name x; NumRequests := NumRequests x;
          NumFailures := NumFailures x; ResponseTimes := ResponseTimes x;
          TotalResponseTime := v;
          TotalContentLength := TotalContentLength x;
          MinResponseTime := MinResponseTime x; MaxResponseTime := MaxResponseTime x;
          NumReqsPerSec := NumReqsPerSec x; NumFailPerSec := NumFailPerSec x |}, e)
  | FTotalContentLength =>
      let '(v, e) := storeInt64 w j (TotalContentLength x) in
      ({| Method := Method x; Name := Name x; NumRequests := NumRequests x;
          NumFailures := NumFailures x; ResponseTimes := ResponseTimes x;
          TotalResponseTime := TotalResponseTime x;
          TotalContentLength := v;
          MinResponseTime := MinResponseTime x; MaxResponseTime := MaxResponseTime x;
          NumReqsPerSec := NumReqsPerSec x; NumFailPerSec := NumFailPerSec x |}, e)
  | FMinResponseTime =>
      let '(v, e) := storeInt64 w j (MinResponseTime x) in
      ({| Method := Method x; Name := Name x; NumRequests := NumRequests x;
          NumFailures := NumFailures x; ResponseTimes := ResponseTimes x;
          TotalResponseTime := TotalResponseTime x;
          TotalContentLength := TotalContentLength x;
          MinResponseTime := v; MaxResponseTime := MaxResponseTime x;
          NumReqsPerSec := NumReqsPerSec x; NumFailPerSec := NumFailPerSec x |}, e)
  | FMaxResponseTime =>
      let '(v, e) := storeInt64 w j (MaxResponseTime x) in
      ({| Method := Method x; Name := Name x; NumRequests := NumRequests x;
          NumFailures := NumFailures x; ResponseTimes := ResponseTimes x;
          TotalResponseTime := TotalResponseTime x;
          TotalContentLength := TotalContentLength x;
          MinResponseTime := MinResponseTime x; MaxResponseTime := v;
          NumReqsPerSec := NumReqsPerSec x; NumFailPerSec := NumFailPerSec x |}, e)
  | FNumReqsPerSec =>
      let '(v, e) := storeMap w j (NumReqsPerSec x) in
      ({| Method := Method x; Name := Name x; NumRequests := NumRequests x;
          NumFailures := NumFailures x; ResponseTimes := ResponseTimes x;
          TotalResponseTime := TotalResponseTime x;
          TotalContentLength := TotalContentLength x;
          MinResponseTime := MinResponseTime x; MaxResponseTime := MaxResponseTime x;
          NumReqsPerSec := v; NumFailPerSec := NumFailPerSec x |}, e)
  | FNumFailPerSec =>
      let '(v, e) := storeMap w j (NumFailPerSec x) in
      ({| Method := Method x; Name := Name x; NumRequests := NumRequests x;
          NumFailures := NumFailures x; ResponseTimes := ResponseTimes x;
          TotalResponseTime := TotalResponseTime x;
          TotalContentLength := TotalContentLength x;
          MinResponseTime := MinResponseTime x; MaxResponseTime := MaxResponseTime x;
          NumReqsPerSec := NumReqsPerSec x; NumFailPerSec := v |}, e)
  end.

(** The members of an object stored into a [statsEntry], one after the other;
    only the first type error is kept, and decoding goes on after it. *)
Fixpoint storeMembers (members : list (string * json)) (x : statsEntry)
    (saved : option error) : statsEntry * option error :=
  match members with
  | [] => (x, saved)
  | (k, j) :: rest =>
      match findField k with
      | None => storeMembers rest x saved
      | Some f =>
          let '(x', e) := storeField f j x in
          storeMembers rest x' (saveError saved e)
      end
  end.

(** [json.Unmarshal(data, &entry)]: the entry after the call, and the error
    returned. [null] has no effect and is no error; anything that is
    neither [null] nor an object is a type error. *)
Definition Unmarshal (data : json) (entry : statsEntry) : statsEntry * option error :=
  match data with
  | JNull => (entry, None)
  | JObject members => storeMembers members entry None
  | _ => (entry, Some (UnmarshalTypeError (kindOf data) ""))
  end.

End Decode.

(** ** The snapshot decoder *)

(** [statsEntryOutput]: the embedded [statsEntry] and the derived view. *)
Record statsEntryOutput : Type := {
  embedded : statsEntry;
  medianResponseTime : Z;
  avgResponseTime : float;
  avgContentLength : Z;
  currentRps : Z;
  currentFailPerSec : Z
}.

(** [dataOutput]. [convertData] never assigns [Errors]; it stays nil. *)
Record dataOutput : Type := {
  UserCount : Z;
  TotalStats : statsEntryOutput;
  TotalRPS : Z;
  TotalFailRatio : float;
  Stats : list statsEntryOutput;
  Errors : gmap string (gmap string value)
}.

Definition deserializeStatsEntry (stat : value) : option statsEntryOutput * option error :=
  match Json.Marshal stat with
  | Err err => (None, Some err)
  | Ok statBytes =>
      let entry := zeroStatsEntry in
      match Decode.Unmarshal statBytes entry with
      | (_, Some err) => (None, Some err)
      | (entry, None) =>
          let numRequests := NumRequests entry in
          (Some {|
             embedded := entry;
             medianResponseTime := getMedianResponseTime numRequests (ResponseTimes entry);
             avgResponseTime := getAvgResponseTime numRequests (TotalResponseTime entry);
             avgContentLength := getAvgContentLength numRequests (TotalContentLength entry);
             currentRps := getCurrentRps numRequests (NumReqsPerSec entry);
             currentFailPerSec := getCurrentFailPerSec (NumFailures entry) (NumFailPerSec entry)
           |}, None)
      end
  end.

(** [output.Stats = append(output.Stats, entryOutput)]. *)
Definition appendStat (output : dataOutput) (entryOutput : statsEntryOutput) : dataOutput :=
  {| UserCount := UserCount output; TotalStats := TotalStats output;
     TotalRPS := TotalRPS output; TotalFailRatio := TotalFailRatio output;
     Stats := Stats output ++ [entryOutput]; Errors := Errors output |}.

(** The loop [for _, stat := range stats] of [convertData], started with
    the output built so far; the function's final [return] hands back
    [output] and the nil [err].

    The callers of [deserializeStatsEntry] and [convertData] test the error
    only and then use the entry. A nil entry with a nil error, on which Go
    would go on with a nil pointer, is never returned
    ([deserializeStatsEntry_cases], [convertData_cases]); the branch for it
    is written [(None, None)] here and leaves the world untouched in the
    sinks. *)
Fixpoint convertStats (stats : list value) (output : dataOutput)
    : option dataOutput * option error :=
  match stats with
  | [] => (Some output, None)
  | stat :: rest =>
      match deserializeStatsEntry stat with
      | (_, Some err) => (None, Some err)
      | (Some entryOutput, None) => convertStats rest (appendStat output entryOutput)
      | (None, None) => (None, None)
      end
  end.

Definition convertData (data : gmap string value) : option dataOutput * option error :=
  match data !! "user_count" with
  | Some (VInt32 userCount) =>
      match data !! "stats" with
      | Some (VSlice stats) =>
          let statsTotal := default VNil (data !! "stats_total") in
          match deserializeStatsEntry statsTotal with
          | (_, Some err) => (None, Some err)
          | (None, None) => (None, None)
          | (Some entryTotalOutput, None) =>
              let output :=
                {| UserCount := userCount;
                   TotalStats := entryTotalOutput;
                   TotalRPS := getCurrentRps (NumRequests (embedded entryTotalOutput))
                                 (NumReqsPerSec (embedded entryTotalOutput));
                   TotalFailRatio := getTotalFailRatio (NumRequests (embedded entryTotalOutput))
                                       (NumFailures (embedded entryTotalOutput));
                   Stats := [];
                   Errors := ∅ |} in
              convertStats stats output
          end
      | _ => (None, Some (ErrorString "stats is not []interface{}"))
      end
  | _ => (None, Some (ErrorString "user_count is not int32"))
  end.

(** ** Sinks *)

(** What a sink does to the outside world is recorded as a trace of effects,
    next to the process-wide gauge values. A logger is known by the name of
    its writer. A table cell holds the [strconv] call that formats it. *)
Definition Logger : Type := string.

Inductive cell : Type :=
| CellString (s : string)
| CellFormatInt (n : Z)
| CellFormatFloat (f : float).

Inductive effect : Type :=
| LogConvertError (l : Logger) (err : error)
| LogSummary (l : Logger) (currentTime : Z) (users rps : Z) (failPercent : float)
| RenderTable (l : Logger) (header : list string) (rows : list (list cell))
| LogBlank (l : Logger)
| GaugeSet (gauge : string) (labels : list string) (v : float)
| PushGateway (outcome : option error)
| LogPushError (l : Logger) (err : error).

Record world : Type := {
  gauges : gmap (string * list string) float;
  trace : list effect
}.

Definition emit (e : effect) (w : world) : world :=
  {| gauges := gauges w; trace := trace w ++ [e] |}.

(** [g.Set(v)] and [g.WithLabelValues(labels...).Set(v)]. *)
Definition gaugeSet (gauge : string) (labels : list string) (v : float) (w : world) : world :=
  {| gauges := <[(gauge, labels) := v]> (gauges w);
     trace := trace w ++ [GaugeSet gauge labels v] |}.

Record ConsoleOutput : Type := { consoleLogger : Logger }.

Definition tableHeader : list string :=
  ["Type"; "Name"; "# requests"; "# fails"; "Median"; "Average"; "Min"; "Max";
   "Content Size"; "# reqs/sec"; "# fails/sec"].

Definition tableRow (stat : statsEntryOutput) : list cell :=
  [CellString (Method (embedded stat));
   CellString (Name (embedded stat));
   CellFormatInt (NumRequests (embedded stat));
   CellFormatInt (NumFailures (embedded stat));
   CellFormatInt (medianResponseTime stat);
   CellFormatFloat (avgResponseTime stat);
   CellFormatInt (MinResponseTime (embedded stat));
   CellFormatInt (MaxResponseTime (embedded stat));
   CellFormatInt (avgContentLength stat);
   CellFormatInt (currentRps stat);
   CellFormatInt (currentFailPerSec stat)].

(** [ConsoleOutput.OnEvent]; [currentTime] is what [time.Now()] returns. *)
Definition ConsoleOutput_OnEvent (o : ConsoleOutput) (currentTime : Z)
    (data : gmap string value) (w : world) : world :=
  match convertData data with
  | (_, Some err) => emit (LogConvertError (consoleLogger o) err) w
  | (None, None) => w
  | (Some output, None) =>
      let w := emit (LogSummary (consoleLogger o) currentTime (UserCount output)
                       (TotalRPS output) (PrimFloat.mul (TotalFailRatio output) 100)) w in
      let rows := foldl (λ table stat, table ++ [tableRow stat]) [] (Stats output) in
      let w := emit (RenderTable (consoleLogger o) tableHeader rows) w in
      emit (LogBlank (consoleLogger o)) w
  end.

Definition namespace : string := "boomer".

Definition gaugeNumRequests : string := namespace +:+ "_num_requests".
Definition gaugeNumFailures : string := namespace +:+ "_num_failures".
Definition gaugeMedianResponseTime : string := namespace +:+ "_median_response_time".
Definition gaugeAverageResponseTime : string := namespace +:+ "_average_response_time".
Definition gaugeMinResponseTime : string := namespace +:+ "_min_response_time".
Definition gaugeMaxResponseTime : string := namespace +:+ "_max_response_time".
Definition gaugeAverageContentLength : string := namespace +:+ "_average_content_length".
Definition gaugeCurrentRPS : string := namespace +:+ "_current_rps".
Definition gaugeCurrentFailPerSec : string := namespace +:+ "_current_fail_per_sec".
Definition gaugeUsers : string := namespace +:+ "_users".
Definition gaugeTotalRPS : string := namespace +:+ "_total_rps".
Definition gaugeTotalFailRatio : string := namespace +:+ "_fail_ratio".

Record PrometheusPusherOutput : Type := {
  gatewayURL : string;
  jobName : string;
  pusherLogger : Logger
}.

(** The body of the loop over [output.Stats] in
    [PrometheusPusherOutput.OnEvent]. *)
Definition setStatGauges (w : world) (stat : statsEntryOutput) : world :=
  let method := Method (embedded stat) in
  let name := Name (embedded stat) in
  let w := gaugeSet gaugeNumRequests [method; name]
             (Int64.to_float64 (NumRequests (embedded stat))) w in
  let w := gaugeSet gaugeNumFailures [method; name]
             (Int64.to_float64 (NumFailures (embedded stat))) w in
  let w := gaugeSet gaugeMedianResponseTime [method; name]
             (Int64.to_float64 (medianResponseTime stat)) w in
  let w := gaugeSet gaugeAverageResponseTime [method; name] (avgResponseTime stat) w in
  let w := gaugeSet gaugeMinResponseTime [method; name]
             (Int64.to_float64 (MinResponseTime (embedded stat))) w in
  let w := gaugeSet gaugeMaxResponseTime [method; name]
             (Int64.to_float64 (MaxResponseTime (embedded stat))) w in
  let w := gaugeSet gaugeAverageContentLength [method; name]
             (Int64.to_float64 (avgContentLength stat)) w in
  let w := gaugeSet gaugeCurrentRPS [method; name]
             (Int64.to_float64 (currentRps stat)) w in
  gaugeSet gaugeCurrentFailPerSec [method; name]
    (Int64.to_float64 (currentFailPerSec stat)) w.

(** [PrometheusPusherOutput.OnEvent]; [pushOutcome] is what
    [o.pusher.Push()] returns on this tick. *)
Definition PrometheusPusherOutput_OnEvent (o : PrometheusPusherOutput)
    (pushOutcome : option error) (data : gmap string value) (w : world) : world :=
  match convertData data with
  | (_, Some err) => emit (LogConvertError (pusherLogger o) err) w
  | (None, None) => w
  | (Some output, None) =>
      let w := gaugeSet gaugeUsers [] (Int64.to_float64 (UserCount output)) w in
      let w := gaugeSet gaugeTotalRPS [] (Int64.to_float64 (TotalRPS output)) w in
      let w := gaugeSet gaugeTotalFailRatio [] (TotalFailRatio output) w in
      let w := foldl setStatGauges w (Stats output) in
      let w := emit (PushGateway pushOutcome) w in
      match pushOutcome with
      | Some err => emit (LogPushError (pusherLogger o) err) w
      | None => w
      end
  end.

(** ** The median, in the words of the specification

    The buckets of the histogram are walked in ascending key order with a
    running position; the walk stops at the first bucket whose count
    exceeds the position that remains, and otherwise takes the count off
    the position. [None] says that the position was never exhausted. *)
Fixpoint walkBuckets (buckets : list (Z * Z)) (pos : Z) : option Z :=
  match buckets with
  | [] => None
  | (k, c) :: rest =>
      if decide (pos < c) then Some k else walkBuckets rest (Int64.sub pos c)
  end.

(** Ascending key order. *)
Definition keyAscending (x y : Z * Z) : Prop := x.1 < y.1.

Global Instance keyAscending_dec x y : Decision (keyAscending x y) :=
  decide (x.1 < y.1).

(** The sum of the counts of all buckets. *)
Definition totalCount (responseTimes : gmap Z Z) : Z :=
  foldr Z.add 0 (map_to_list responseTimes).*2.

(** The median position [(numRequests - 1) / 2], computed on int64. *)
Definition medianPosition (numRequests : Z) : Z :=
  Int64.div (Int64.sub numRequests 1) 2.

(** The nine gauge updates of one per-group entry, as a trace. *)
Definition statGaugeUpdates (stat : statsEntryOutput) : list effect :=
  trace (setStatGauges {| gauges := ∅; trace := [] |} stat).

(** ** The rest of the sinks *)

(** [log.Default()], the standard logger of the process. *)
Definition logDefault : Logger := "log.Default".

Definition NewConsoleOutput : ConsoleOutput := {| consoleLogger := logDefault |}.

(** [WithLogger]: the argument is a pointer and may be nil, in which case
    the logger is kept. *)
Definition ConsoleOutput_WithLogger (o : ConsoleOutput) (logger : option Logger)
    : ConsoleOutput :=
  match logger with
  | Some l => {| consoleLogger := l |}
  | None => o
  end.

Definition ConsoleOutput_OnStart (o : ConsoleOutput) (w : world) : world := w.

Definition ConsoleOutput_OnStop (o : ConsoleOutput) (w : world) : world := w.

Definition NewPrometheusPusherOutput (gatewayURL jobName : string)
    : PrometheusPusherOutput :=
  {| gatewayURL := gatewayURL; jobName := jobName; pusherLogger := logDefault |}.

Definition PrometheusPusherOutput_WithLogger (o : PrometheusPusherOutput)
    (logger : option Logger) : PrometheusPusherOutput :=
  match logger with
  | Some l => {| gatewayURL := gatewayURL o; jobName := jobName o; pusherLogger := l |}
  | None => o
  end.

Definition PrometheusPusherOutput_OnStop (o : PrometheusPusherOutput) (w : world)
    : world := w.

(** The collectors that [PrometheusPusherOutput.OnStart] hands to
    [registry.MustRegister], in the order of the call. *)
Definition registeredCollectors : list string :=
  [gaugeNumRequests; gaugeNumFailures; gaugeMedianResponseTime;
   gaugeAverageResponseTime; gaugeMinResponseTime; gaugeMaxResponseTime;
   gaugeAverageContentLength; gaugeCurrentRPS; gaugeCurrentFailPerSec;
   gaugeUsers; gaugeTotalRPS; gaugeTotalFailRatio].

(** ** Notions used to state properties *)

(** The gauge values after one more effect of a trace. *)
Definition applyEffect (g : gmap (string * list string) float) (e : effect)
    : gmap (string * list string) float :=
  match e with
  | GaugeSet gauge labels v => <[(gauge, labels) := v]> g
  | _ => g
  end.

(** The gauge updates of a tick of the pusher sink that decodes [output]:
    the three run-level gauges, then the nine gauges of every entry. *)
Definition snapshotGaugeUpdates (output : dataOutput) : list effect :=
  [GaugeSet gaugeUsers [] (Int64.to_float64 (UserCount output));
   GaugeSet gaugeTotalRPS [] (Int64.to_float64 (TotalRPS output));
   GaugeSet gaugeTotalFailRatio [] (TotalFailRatio output)] ++
  concat (statGaugeUpdates <$> Stats output).

(** The labels of the per-group gauges of an entry. *)
Definition statLabels (stat : statsEntryOutput) : list string :=
  [Method (embedded stat); Name (embedded stat)].

(** The logger an effect writes to, if it is a log line or a table. *)
Definition effectLogger (e : effect) : option Logger :=
  match e with
  | LogConvertError l _ | LogSummary l _ _ _ _ | RenderTable l _ _
  | LogBlank l | LogPushError l _ => Some l
  | GaugeSet _ _ _ | PushGateway _ => None
  end.

Definition isGaugeSet (e : effect) : bool :=
  match e with
  | GaugeSet _ _ _ => true
  | _ => false
  end.

Definition isPush (e : effect) : bool :=
  match e with
  | PushGateway _ => true
  | _ => false
  end.

(** The derived view of an output entry is computed from its own counters. *)
Definition derivedFromCounters (entryOutput : statsEntryOutput) : Prop :=
  let entry := embedded entryOutput in
  medianResponseTime entryOutput =
    getMedianResponseTime (NumRequests entry) (ResponseTimes entry) ∧
  avgResponseTime entryOutput =
    getAvgResponseTime (NumRequests entry) (TotalResponseTime entry) ∧
  avgContentLength entryOutput =
    getAvgContentLength (NumRequests entry) (TotalContentLength entry) ∧
  currentRps entryOutput = getCurrentRps (NumRequests entry) (NumReqsPerSec entry) ∧
  currentFailPerSec entryOutput =
    getCurrentFailPerSec (NumFailures entry) (NumFailPerSec entry).





(** * Properties *)

(** ** Machine integers *)

Lemma wrap64_id (z : Z) : Int64.in_range z → Int64.wrap64 z = z.
Proof.
  unfold Int64.in_range, Int64.wrap64, Int64.min_int, Int64.max_int.
  intros Hz. rewrite Z.mod_small by lia. lia.
Qed.

Lemma wrap64_in_range (z : Z) : Int64.in_range (Int64.wrap64 z).
Proof.
  unfold Int64.in_range, Int64.wrap64, Int64.min_int, Int64.max_int.
  pose proof (Z.mod_pos_bound (z + 2 ^ 63) (2 ^ 64)). lia.
Qed.

Lemma quot_in_range (x y : Z) :
  Int64.in_range x → y ≠ 0 → ¬ (x = Int64.min_int ∧ y = -1) →
  Int64.in_range (x ÷ y).
Proof.
  unfold Int64.in_range, Int64.min_int, Int64.max_int.
  intros Hx Hy Hov. rewrite Z.quot_div by done.
  assert (0 ≤ Z.abs x `div` Z.abs y ≤ Z.abs x).
  { split; [apply Z.div_pos; lia|]. apply Z.div_le_upper_bound; nia. }
  assert (Z.abs y = 1 ∨ 2 ≤ Z.abs y) as [H1|H2] by lia.
  - rewrite H1, Z.div_1_r in *. lia.
  - assert (Z.abs x `div` Z.abs y ≤ Z.abs x `div` 2).
    { apply Z.div_le_compat_l; lia. }
    assert (Z.abs x `div` 2 < 2 ^ 63).
    { apply Z.div_lt_upper_bound; lia. }
    nia.
Qed.

Lemma div64_quot (x y : Z) :
  Int64.in_range x → y ≠ 0 → ¬ (x = Int64.min_int ∧ y = -1) →
  Int64.div x y = x ÷ y.
Proof. intros. unfold Int64.div. by apply wrap64_id, quot_in_range. Qed.

Lemma medianPosition_in_range (numRequests : Z) :
  Int64.in_range (medianPosition numRequests).
Proof. apply wrap64_in_range. Qed.

Lemma medianPosition_quot (numRequests : Z) :
  Int64.min_int < numRequests ≤ Int64.max_int →
  medianPosition numRequests = (numRequests - 1) ÷ 2.
Proof.
  intros Hn. unfold medianPosition, Int64.sub.
  assert (Int64.in_range (numRequests - 1)) as Hr.
  { unfold Int64.in_range, Int64.min_int, Int64.max_int in *. lia. }
  rewrite (wrap64_id _ Hr). apply div64_quot; [done|lia|lia].
Qed.

(** ** The median *)

(** Sorting any enumeration of the keys gives the keys of the buckets in
    ascending order. *)
Lemma sorted_keys_of_buckets (rangeKeys : list Z) (buckets : list (Z * Z)) :
  rangeKeys ≡ₚ buckets.*1 →
  Sorted keyAscending buckets →
  merge_sort Z.le rangeKeys = buckets.*1.
Proof.
  intros Hperm Hsorted.
  apply (Sorted_unique Z.le).
  - apply Sorted_merge_sort; apply _.
  - clear Hperm. induction Hsorted as [|b bs Hbs IH Hhd]; [constructor|].
    cbn. constructor; [exact IH|].
    destruct Hhd as [|b' bs' Hlt]; constructor.
    unfold keyAscending in Hlt. cbn. lia.
  - by rewrite merge_sort_Permutation.
Qed.

(** The loop over the sorted keys, looking counts up in the map, is the walk
    over the buckets. *)
Lemma medianLoop_walkBuckets (responseTimes : gmap Z Z) (buckets : list (Z * Z)) (pos : Z) :
  Forall (λ b, responseTimes !! b.1 = Some b.2) buckets →
  medianLoop responseTimes buckets.*1 pos = default 0 (walkBuckets buckets pos).
Proof.
  intros Hall. revert pos.
  induction Hall as [|[k c] bs Hk _ IH]; intros pos; [reflexivity|].
  cbn in *. rewrite Hk. cbn. destruct (decide (pos < c)); [reflexivity|apply IH].
Qed.

Lemma buckets_lookup (responseTimes : gmap Z Z) (buckets : list (Z * Z)) :
  buckets ≡ₚ map_to_list responseTimes →
  Forall (λ b, responseTimes !! b.1 = Some b.2) buckets.
Proof.
  intros Hperm. apply Forall_forall. intros [k c] Hin.
  rewrite Hperm in Hin. by apply elem_of_map_to_list in Hin.
Qed.

Lemma getMedianResponseTimeIn_walk (rangeKeys : list Z) (numRequests : Z)
    (responseTimes : gmap Z Z) (buckets : list (Z * Z)) :
  rangeKeys ≡ₚ (map_to_list responseTimes).*1 →
  buckets ≡ₚ map_to_list responseTimes →
  Sorted keyAscending buckets →
  getMedianResponseTimeIn rangeKeys numRequests responseTimes =
    default 0 (walkBuckets buckets (medianPosition numRequests)).
Proof.
  intros Hrange Hperm Hsorted. unfold getMedianResponseTimeIn.
  destruct (decide (size responseTimes ≠ 0%nat)) as [Hne|He].
  - rewrite (sorted_keys_of_buckets rangeKeys buckets); [|by rewrite Hrange, Hperm|done].
    apply medianLoop_walkBuckets. by apply buckets_lookup.
  - assert (responseTimes = ∅) as -> by (apply map_size_empty_iff; lia).
    rewrite map_to_list_empty in Hperm. apply Permutation_nil_r in Hperm.
    by subst buckets.
Qed.

Lemma sum_counts_perm (l1 l2 : list Z) :
  l1 ≡ₚ l2 → foldr Z.add 0 l1 = foldr Z.add 0 l2.
Proof. induction 1; cbn; lia. Qed.

(** With counts that are not negative, the walk runs off the end exactly
    when the counts sum to at most the starting position. *)
Lemma walkBuckets_None_iff (buckets : list (Z * Z)) (pos : Z) :
  Forall (λ b, 0 ≤ b.2) buckets →
  pos ≤ Int64.max_int →
  buckets ≠ [] ∨ 0 ≤ pos →
  walkBuckets buckets pos = None ↔ foldr Z.add 0 buckets.*2 ≤ pos.
Proof.
  intros Hall. revert pos.
  induction Hall as [|[k c] bs Hc Hbs IH]; intros pos Hmax Hne.
  - cbn. destruct Hne as [?|?]; [done|]. split; [lia|done].
  - cbn in *. assert (0 ≤ foldr Z.add 0 bs.*2) as Hsum.
    { clear -Hbs. induction Hbs as [|[] ? ? ? IH]; cbn in *; lia. }
    destruct (decide (pos < c)) as [Hlt|Hge].
    + split; [done|lia].
    + unfold Int64.sub. rewrite wrap64_id.
      * rewrite IH; [lia|lia|right; lia].
      * unfold Int64.in_range, Int64.min_int, Int64.max_int in *. lia.
Qed.

(** C1. Whatever the order in which the keys are ranged over,
    [getMedianResponseTime] returns what the walk over the buckets in
    ascending key order returns, started at [(numRequests - 1) / 2]: the
    first key whose count exceeds the position that remains, and 0 when the
    map is empty or the position is never exhausted, which for counts that
    are not negative means that the counts sum to at most the starting
    position. The two histograms of the specification give 100 and 300. *)
Theorem getMedianResponseTime_walks_buckets (rangeKeys : list Z) (numRequests : Z)
    (responseTimes : gmap Z Z) (buckets : list (Z * Z)) :
  rangeKeys ≡ₚ (map_to_list responseTimes).*1 →
  buckets ≡ₚ map_to_list responseTimes →
  Sorted keyAscending buckets →
  getMedianResponseTimeIn rangeKeys numRequests responseTimes =
    default 0 (walkBuckets buckets (medianPosition numRequests)) ∧
  (Int64.min_int < numRequests ≤ Int64.max_int →
     medianPosition numRequests = (numRequests - 1) ÷ 2) ∧
  (responseTimes = ∅ →
     getMedianResponseTimeIn rangeKeys numRequests responseTimes = 0) ∧
  (walkBuckets buckets (medianPosition numRequests) = None →
     getMedianResponseTimeIn rangeKeys numRequests responseTimes = 0) ∧
  (responseTimes ≠ ∅ →
   (∀ k c, responseTimes !! k = Some c → 0 ≤ c) →
     walkBuckets buckets (medianPosition numRequests) = None ↔
     totalCount responseTimes ≤ medianPosition numRequests) ∧
  getMedianResponseTime 6 (<[100:=3]> (<[200:=2]> (<[300:=1]> ∅))) = 100 ∧
  getMedianResponseTime 6 (<[100:=1]> (<[200:=1]> (<[300:=4]> ∅))) = 300.
Proof.
  intros Hrange Hperm Hsorted.
  pose proof (getMedianResponseTimeIn_walk _ numRequests _ _ Hrange Hperm Hsorted) as Hwalk.
  split; [exact Hwalk|]. split; [apply medianPosition_quot|].
  split.
  { intros ->. rewrite map_to_list_empty in Hperm.
    apply Permutation_nil_r in Hperm. by rewrite Hwalk, Hperm. }
  split; [by intros Hnone; rewrite Hwalk, Hnone|].
  split; [|split; vm_compute; reflexivity].
  intros Hne Hnonneg. unfold totalCount.
  rewrite <- (sum_counts_perm buckets.*2) by (by rewrite Hperm).
  apply walkBuckets_None_iff.
  - apply Forall_forall. intros [k c] Hin. rewrite Hperm in Hin.
    apply elem_of_map_to_list in Hin. cbn. by eapply Hnonneg.
  - apply medianPosition_in_range.
  - left. intros ->. apply Hne. apply Permutation_nil_l in Hperm.
    by apply map_to_list_empty_iff.
Qed.

Lemma getMedianResponseTime_walks_buckets_witness :
  ([300; 100; 200] ≡ₚ (map_to_list (<[100:=1]> (<[200:=1]> (<[300:=4]> (∅ : gmap Z Z))))).*1 ∧
   [(100, 1); (200, 1); (300, 4)] ≡ₚ
     map_to_list (<[100:=1]> (<[200:=1]> (<[300:=4]> (∅ : gmap Z Z)))) ∧
   Sorted keyAscending [(100, 1); (200, 1); (300, 4)]) ∧
  getMedianResponseTimeIn [300; 100; 200] 6
    (<[100:=1]> (<[200:=1]> (<[300:=4]> ∅))) = 300 ∧
  getMedianResponseTimeIn [300; 100; 200] 2
    (<[100:=1]> (<[200:=1]> (<[300:=4]> ∅))) = 100 ∧
  getMedianResponseTimeIn [300; 100; 200] 14
    (<[100:=1]> (<[200:=1]> (<[300:=4]> ∅))) = 0.
Proof.
  assert (H1 : [300; 100; 200] ≡ₚ
                 (map_to_list (<[100:=1]> (<[200:=1]> (<[300:=4]> (∅ : gmap Z Z))))).*1).
  { apply (bool_decide_unpack _). vm_compute. exact I. }
  assert (H2 : [(100, 1); (200, 1); (300, 4)] ≡ₚ
                 map_to_list (<[100:=1]> (<[200:=1]> (<[300:=4]> (∅ : gmap Z Z))))).
  { apply (bool_decide_unpack _). vm_compute. exact I. }
  assert (H3 : Sorted keyAscending [(100, 1); (200, 1); (300, 4)]).
  { apply (bool_decide_unpack _). vm_compute. exact I. }
  split; [auto|].
  destruct (getMedianResponseTime_walks_buckets _ 6 _ _ H1 H2 H3) as (E6 & _).
  destruct (getMedianResponseTime_walks_buckets _ 2 _ _ H1 H2 H3) as (E2 & _).
  destruct (getMedianResponseTime_walks_buckets _ 14 _ _ H1 H2 H3) as (E14 & _).
  rewrite E6, E2, E14. vm_compute. auto.
Defined.

(** C8. The derivation functions are functions of the contents of their
    arguments: equal counts and maps with equal entries give equal results,
    and the median does not depend on the order in which the keys of the
    histogram are ranged over. *)
Theorem derivations_deterministic (range1 range2 : list Z)
    (n n' t t' : Z) (m m' : gmap Z Z) :
  range1 ≡ₚ (map_to_list m).*1 →
  range2 ≡ₚ (map_to_list m).*1 →
  n = n' → t = t' → (∀ k, m !! k = m' !! k) →
  getMedianResponseTimeIn range1 n m = getMedianResponseTimeIn range2 n m ∧
  getMedianResponseTimeIn range1 n m = getMedianResponseTime n' m' ∧
  getAvgResponseTime n t = getAvgResponseTime n' t' ∧
  getAvgContentLength n t = getAvgContentLength n' t' ∧
  getCurrentRps n m = getCurrentRps n' m' ∧
  getCurrentFailPerSec n m = getCurrentFailPerSec n' m' ∧
  getTotalFailRatio n t = getTotalFailRatio n' t'.
Proof.
  intros H1 H2 <- <- Hm. apply map_eq in Hm. subst m'.
  assert (∀ r, r ≡ₚ (map_to_list m).*1 →
             getMedianResponseTimeIn r n m = getMedianResponseTime n m) as Hany.
  { intros r Hr. unfold getMedianResponseTime, getMedianResponseTimeIn.
    destruct (decide (size m ≠ 0%nat)); [|reflexivity].
    f_equal. apply (Sorted_unique Z.le).
    - apply Sorted_merge_sort; apply _.
    - apply Sorted_merge_sort; apply _.
    - by rewrite !merge_sort_Permutation. }
  rewrite (Hany _ H1), (Hany _ H2). auto 10.
Qed.

Lemma derivations_deterministic_witness :
  ([300; 200; 100] ≡ₚ (map_to_list (<[100:=3]> (<[200:=2]> (<[300:=1]> (∅ : gmap Z Z))))).*1 ∧
   [200; 300; 100] ≡ₚ (map_to_list (<[100:=3]> (<[200:=2]> (<[300:=1]> (∅ : gmap Z Z))))).*1) ∧
  getMedianResponseTimeIn [300; 200; 100] 6 (<[100:=3]> (<[200:=2]> (<[300:=1]> ∅))) =
    getMedianResponseTimeIn [200; 300; 100] 6 (<[100:=3]> (<[200:=2]> (<[300:=1]> ∅))) ∧
  getMedianResponseTimeIn [300; 200; 100] 6 (<[100:=3]> (<[200:=2]> (<[300:=1]> ∅))) = 100.
Proof.
  assert (H1 : [300; 200; 100] ≡ₚ
                 (map_to_list (<[100:=3]> (<[200:=2]> (<[300:=1]> (∅ : gmap Z Z))))).*1).
  { apply (bool_decide_unpack _). vm_compute. exact I. }
  assert (H2 : [200; 300; 100] ≡ₚ
                 (map_to_list (<[100:=3]> (<[200:=2]> (<[300:=1]> (∅ : gmap Z Z))))).*1).
  { apply (bool_decide_unpack _). vm_compute. exact I. }
  split; [auto|].
  destruct (derivations_deterministic _ _ 6 6 0 0 _ _ H1 H2 eq_refl eq_refl (λ k, eq_refl))
    as (Ha & Hb & _).
  split; [exact Ha|]. rewrite Hb. vm_compute. reflexivity.
Defined.

(** ** Quotients and rates *)

(** C3. With a zero request count the three quotients are exactly zero; with
    a non-zero count they are the float quotient, the integer quotient of
    int64 (which truncates toward zero) and the float quotient of their
    arguments. *)
Theorem quotients_zero_guard (numRequests total failures : Z) :
  getAvgResponseTime 0 total = 0%float ∧
  getAvgContentLength 0 total = 0 ∧
  getTotalFailRatio 0 failures = 0%float ∧
  (numRequests ≠ 0 →
     getAvgResponseTime numRequests total =
       PrimFloat.div (Int64.to_float64 total) (Int64.to_float64 numRequests) ∧
     getAvgContentLength numRequests total = Int64.div total numRequests ∧
     getTotalFailRatio numRequests failures =
       PrimFloat.div (Int64.to_float64 failures) (Int64.to_float64 numRequests) ∧
     (Int64.in_range total → ¬ (total = Int64.min_int ∧ numRequests = -1) →
        getAvgContentLength numRequests total = total ÷ numRequests)).
Proof.
  split; [reflexivity|]. split; [reflexivity|]. split; [reflexivity|].
  intros Hn.
  unfold getAvgResponseTime, getAvgContentLength, getTotalFailRatio.
  destruct (decide (numRequests ≠ 0)) as [_|Hc]; [|contradiction].
  destruct (decide (numRequests = 0)) as [Hc|_]; [contradiction|].
  repeat (split; [reflexivity|]).
  intros Hrt Hov. by apply div64_quot.
Qed.

Lemma quotients_zero_guard_witness :
  (4 ≠ 0 ∧ Int64.in_range 10 ∧ ¬ (10 = Int64.min_int ∧ 4 = -1)) ∧
  getAvgResponseTime 4 10 = 2.5%float ∧
  getAvgContentLength 4 10 = 2 ∧
  getTotalFailRatio 4 1 = 0.25%float.
Proof.
  assert (Hyp : 4 ≠ 0 ∧ Int64.in_range 10 ∧ ¬ (10 = Int64.min_int ∧ 4 = -1)).
  { unfold Int64.in_range, Int64.min_int, Int64.max_int. lia. }
  split; [exact Hyp|].
  destruct Hyp as (H1 & H2 & H3).
  destruct (quotients_zero_guard 4 10 1) as (_ & _ & _ & H).
  destruct (H H1) as (Ha & _ & Hc & Hb).
  rewrite Ha, (Hb H2 H3), Hc. vm_compute. auto.
Defined.

Lemma len64_dom (m : gmap Z Z) : len64 m = Z.of_nat (size (dom m)).
Proof. unfold len64. by rewrite size_dom. Qed.

Lemma rate_quot (n : Z) (m : gmap Z Z) :
  Int64.in_range n → m ≠ ∅ →
  Int64.div n (len64 m) = n ÷ Z.of_nat (size (dom m)).
Proof.
  intros Hn Hm. rewrite <- len64_dom.
  assert (0 < len64 m).
  { unfold len64. assert (size m ≠ 0%nat) by (by rewrite map_size_empty_iff). lia. }
  apply div64_quot; [done|lia|lia].
Qed.

(** C4. The current rates are the truncating quotient of the count by the
    number of distinct keys of the second-bucket map, whatever its values,
    and 0 for an empty map; 40 requests over 4 distinct seconds give 10. *)
Theorem current_rate_by_distinct_seconds (count : Z) (seconds seconds' : gmap Z Z) :
  getCurrentRps count ∅ = 0 ∧
  getCurrentFailPerSec count ∅ = 0 ∧
  (Int64.in_range count → seconds ≠ ∅ →
     getCurrentRps count seconds = count ÷ Z.of_nat (size (dom seconds)) ∧
     getCurrentFailPerSec count seconds = count ÷ Z.of_nat (size (dom seconds))) ∧
  (dom seconds = dom seconds' →
     getCurrentRps count seconds = getCurrentRps count seconds' ∧
     getCurrentFailPerSec count seconds = getCurrentFailPerSec count seconds') ∧
  (size (dom seconds) = 4%nat → getCurrentRps 40 seconds = 10).
Proof.
  split; [reflexivity|]. split; [reflexivity|].
  unfold getCurrentRps, getCurrentFailPerSec.
  split; [|split].
  - intros Hc Hs. rewrite <- rate_quot by done.
    destruct (decide (len64 seconds ≠ 0)) as [_|Hz]; [done|].
    exfalso. apply Hz. unfold len64.
    assert (size seconds ≠ 0%nat) by (by rewrite map_size_empty_iff). lia.
  - intros Hdom. by rewrite !len64_dom, Hdom.
  - intros H4. rewrite len64_dom, H4. reflexivity.
Qed.

Lemma current_rate_by_distinct_seconds_witness :
  (Int64.in_range 40 ∧
   (<[1:=7]> (<[2:=0]> (<[3:=9]> (<[5:=100]> ∅))) : gmap Z Z) ≠ ∅ ∧
   dom (<[1:=7]> (<[2:=0]> (<[3:=9]> (<[5:=100]> ∅))) : gmap Z Z) =
     dom (<[1:=1]> (<[2:=1]> (<[3:=1]> (<[5:=1]> ∅))) : gmap Z Z) ∧
   size (dom (<[1:=7]> (<[2:=0]> (<[3:=9]> (<[5:=100]> ∅))) : gmap Z Z)) = 4%nat) ∧
  getCurrentRps 40 (<[1:=7]> (<[2:=0]> (<[3:=9]> (<[5:=100]> ∅)))) = 10 ∧
  getCurrentRps 40 (<[1:=7]> (<[2:=0]> (<[3:=9]> (<[5:=100]> ∅)))) =
    getCurrentRps 40 (<[1:=1]> (<[2:=1]> (<[3:=1]> (<[5:=1]> ∅)))).
Proof.
  assert (H1 : Int64.in_range 40).
  { unfold Int64.in_range, Int64.min_int, Int64.max_int. lia. }
  assert (H2 : (<[1:=7]> (<[2:=0]> (<[3:=9]> (<[5:=100]> ∅))) : gmap Z Z) ≠ ∅).
  { apply (bool_decide_unpack _). vm_compute. exact I. }
  assert (H3 : dom (<[1:=7]> (<[2:=0]> (<[3:=9]> (<[5:=100]> ∅))) : gmap Z Z) =
               dom (<[1:=1]> (<[2:=1]> (<[3:=1]> (<[5:=1]> ∅))) : gmap Z Z)).
  { apply (bool_decide_unpack _). vm_compute. exact I. }
  assert (H4 : size (dom (<[1:=7]> (<[2:=0]> (<[3:=9]> (<[5:=100]> ∅))) : gmap Z Z)) = 4%nat).
  { vm_compute. reflexivity. }
  split; [auto|].
  destruct (current_rate_by_distinct_seconds 40
              (<[1:=7]> (<[2:=0]> (<[3:=9]> (<[5:=100]> ∅))))
              (<[1:=1]> (<[2:=1]> (<[3:=1]> (<[5:=1]> ∅)))))
    as (_ & _ & _ & Hd & Hs).
  split; [exact (Hs H4)|]. exact (proj1 (Hd H3)).
Defined.

(** ** The decoder *)

Lemma deserializeStatsEntry_cases (stat : value) :
  (∃ entryOutput, deserializeStatsEntry stat = (Some entryOutput, None)) ∨
  (∃ err, deserializeStatsEntry stat = (None, Some err)).
Proof.
  unfold deserializeStatsEntry.
  destruct (Json.Marshal stat) as [statBytes|err]; [|eauto].
  destruct (Decode.Unmarshal statBytes zeroStatsEntry) as [entry [err|]]; eauto.
Qed.

(** The loop of [convertData] keeps everything but [Stats], to which it
    appends the decoded entries in the order of the input. *)
Lemma convertStats_Some (stats : list value) (output output' : dataOutput) :
  convertStats stats output = (Some output', None) →
  UserCount output' = UserCount output ∧
  TotalStats output' = TotalStats output ∧
  TotalRPS output' = TotalRPS output ∧
  TotalFailRatio output' = TotalFailRatio output ∧
  Errors output' = Errors output ∧
  ∃ entries,
    Stats output' = Stats output ++ entries ∧
    Forall2 (λ stat entry, deserializeStatsEntry stat = (Some entry, None)) stats entries.
Proof.
  revert output. induction stats as [|stat rest IH]; intros output Hc; cbn in Hc.
  - injection Hc as <-. repeat split. exists []. by rewrite app_nil_r.
  - destruct (deserializeStatsEntry stat) as [[entry|] [err|]] eqn:Hd; try discriminate.
    apply IH in Hc as (-> & -> & -> & -> & -> & entries & -> & Hall). cbn.
    repeat split. exists (entry :: entries). split; [by rewrite <- app_assoc|].
    by constructor.
Qed.

Lemma convertStats_cases (stats : list value) (output : dataOutput) :
  (∃ output', convertStats stats output = (Some output', None)) ∨
  (∃ err, convertStats stats output = (None, Some err)).
Proof.
  revert output. induction stats as [|stat rest IH]; intros output; cbn; [eauto|].
  destruct (deserializeStatsEntry_cases stat) as [[entry ->]|[err ->]]; eauto.
Qed.

Lemma convertStats_error (stats : list value) (output : dataOutput) (stat : value) :
  stat ∈ stats → (deserializeStatsEntry stat).2 ≠ None →
  ∃ err, convertStats stats output = (None, Some err).
Proof.
  intros Hin Hbad. revert output.
  induction stats as [|s rest IH]; intros output; [by apply elem_of_nil in Hin|].
  cbn. destruct (deserializeStatsEntry_cases s) as [[entry Hs]|[err Hs]]; rewrite Hs; [|eauto].
  apply elem_of_cons in Hin as [->|Hin]; [|by apply IH].
  by rewrite Hs in Hbad.
Qed.

Lemma convertStats_ok (stats : list value) (output : dataOutput) :
  Forall (λ stat, (deserializeStatsEntry stat).2 = None) stats →
  ∃ output', convertStats stats output = (Some output', None).
Proof.
  intros Hall. revert output.
  induction Hall as [|stat rest Hs _ IH]; intros output; cbn; [eauto|].
  destruct (deserializeStatsEntry_cases stat) as [[entry Hd]|[err Hd]];
    rewrite Hd in *; [apply IH|discriminate].
Qed.

Lemma convertData_cases (data : gmap string value) :
  (∃ output, convertData data = (Some output, None)) ∨
  (∃ err, convertData data = (None, Some err)).
Proof.
  unfold convertData.
  destruct (data !! "user_count") as [[]|]; eauto.
  destruct (data !! "stats") as [[]|]; eauto.
  destruct (deserializeStatsEntry_cases (default VNil (data !! "stats_total")))
    as [[entry ->]|[err ->]]; [apply convertStats_cases|eauto].
Qed.

(** What a successful [convertData] returns. *)
Lemma convertData_Some (data : gmap string value) (output : dataOutput) :
  convertData data = (Some output, None) →
  ∃ userCount stats,
    data !! "user_count" = Some (VInt32 userCount) ∧
    data !! "stats" = Some (VSlice stats) ∧
    UserCount output = userCount ∧
    deserializeStatsEntry (default VNil (data !! "stats_total")) =
      (Some (TotalStats output), None) ∧
    TotalRPS output =
      getCurrentRps (NumRequests (embedded (TotalStats output)))
        (NumReqsPerSec (embedded (TotalStats output))) ∧
    TotalFailRatio output =
      getTotalFailRatio (NumRequests (embedded (TotalStats output)))
        (NumFailures (embedded (TotalStats output))) ∧
    Errors output = ∅ ∧
    Forall2 (λ stat entry, deserializeStatsEntry stat = (Some entry, None))
      stats (Stats output).
Proof.
  unfold convertData. intros Hc.
  destruct (data !! "user_count") as [[| | |userCount| | | | | | |]|]; try discriminate.
  destruct (data !! "stats") as [[| | | | | | |stats| | |]|]; try discriminate.
  destruct (deserializeStatsEntry (default VNil (data !! "stats_total")))
    as [[entry|] [err|]] eqn:Htotal; try discriminate.
  apply convertStats_Some in Hc as (Hu & Ht & Hr & Hf & He & entries & Hs & Hall).
  cbn in *. exists userCount, stats. rewrite Ht, Hs. by repeat split.
Qed.

(** Whether storing a JSON value raises a type error does not depend on what
    the destination holds. *)
Lemma storeMapMembers_error (where_ : string) (members : list (string * Json.json))
    (m m' : gmap Z Z) (saved : option error) :
  (Decode.storeMapMembers where_ members m saved).2 =
  (Decode.storeMapMembers where_ members m' saved).2.
Proof.
  revert m m' saved. induction members as [|[k j] rest IH]; intros m m' saved; [done|].
  cbn. destruct (Decode.storeInt64 where_ j 0) as [elem e].
  destruct (Decode.ParseInt k); apply IH.
Qed.

Lemma storeString_error (where_ : string) (j : Json.json) (old old' : string) :
  (Decode.storeString where_ j old).2 = (Decode.storeString where_ j old').2.
Proof. by destruct j. Qed.

Lemma storeInt64_error (where_ : string) (j : Json.json) (old old' : Z) :
  (Decode.storeInt64 where_ j old).2 = (Decode.storeInt64 where_ j old').2.
Proof.
  destruct j as [| |[n|f]| | |]; cbn; try done.
  - by case_decide.
  - destruct (Decode.floatLitInt f); [by case_decide|done].
Qed.

Lemma storeMap_error (where_ : string) (j : Json.json) (old old' : gmap Z Z) :
  (Decode.storeMap where_ j old).2 = (Decode.storeMap where_ j old').2.
Proof. destruct j; cbn; try done. apply storeMapMembers_error. Qed.

Local Ltac store_error_with lem :=
  match goal with
  | |- (let '(_, _) := ?s ?w ?j ?a in _).2 = (let '(_, _) := ?s ?w ?j ?b in _).2 =>
      let H := fresh in
      pose proof (lem w j a b) as H;
      destruct (s w j a), (s w j b); exact H
  end.

Lemma storeField_error (f : Decode.field) (j : Json.json) (x y : statsEntry) :
  (Decode.storeField f j x).2 = (Decode.storeField f j y).2.
Proof.
  destruct f; cbn;
    first [ store_error_with storeString_error
          | store_error_with storeInt64_error
          | store_error_with storeMap_error ].
Qed.

(** A type error, once saved, is what [Unmarshal] returns. *)
Lemma storeMembers_saved (members : list (string * Json.json)) (x : statsEntry)
    (err : error) :
  (Decode.storeMembers members x (Some err)).2 = Some err.
Proof.
  revert x. induction members as [|[k j] rest IH]; intros x; [done|].
  cbn. destruct (Decode.findField k) as [f|]; [|apply IH].
  destruct (Decode.storeField f j x) as [x' e]. apply IH.
Qed.

(** A member that names a field and does not fit it makes [Unmarshal] fail. *)
Lemma storeMembers_mistyped (members : list (string * Json.json)) (x : statsEntry)
    (saved : option error) (k : string) (j : Json.json) (f : Decode.field) :
  (k, j) ∈ members →
  Decode.findField k = Some f →
  (Decode.storeField f j zeroStatsEntry).2 ≠ None →
  (Decode.storeMembers members x saved).2 ≠ None.
Proof.
  intros Hin Hf Hbad. revert x saved.
  induction members as [|[k' j'] rest IH]; intros x saved;
    [by apply elem_of_nil in Hin|].
  cbn. apply elem_of_cons in Hin as [[= <- <-]|Hin].
  - rewrite Hf. rewrite (storeField_error f j zeroStatsEntry x) in Hbad.
    destruct (Decode.storeField f j x) as [x' [e|]]; [|done].
    destruct saved as [s|]; cbn; by rewrite storeMembers_saved.
  - destruct (Decode.findField k') as [f'|]; [|by apply IH].
    destruct (Decode.storeField f' j' x) as [x' e]. by apply IH.
Qed.

(** Members that name no field are skipped. *)
Lemma storeMembers_unknown (members : list (string * Json.json)) (x : statsEntry)
    (saved : option error) :
  Forall (λ member, Decode.findField member.1 = None) members →
  Decode.storeMembers members x saved = (x, saved).
Proof.
  induction 1 as [|[k j] rest Hk _ IH]; [done|].
  cbn in *. by rewrite Hk.
Qed.

Lemma deserializeStatsEntry_nil :
  deserializeStatsEntry VNil =
    (Some {| embedded := zeroStatsEntry; medianResponseTime := 0;
             avgResponseTime := 0%float; avgContentLength := 0;
             currentRps := 0; currentFailPerSec := 0 |}, None).
Proof. vm_compute. reflexivity. Qed.

(** A report entry as the runner serializes it decodes into its counters
    and the derived view. *)
Example deserializeStatsEntry_report :
  let stat :=
    VMap (<["method" := VString "GET"]> (<["name" := VString "/"]>
         (<["num_requests" := VInt64 40]> (<["num_failures" := VInt64 4]>
         (<["total_response_time" := VInt64 5000]>
         (<["total_content_length" := VInt64 4100]>
         (<["response_times" := VMapInt64 (<[100:=30]> (<[200:=10]> ∅))]>
         (<["num_reqs_per_sec" :=
              VMapInt64 (<[1700000000:=10]> (<[1700000001:=10]>
                        (<[1700000002:=10]> (<[1700000003:=10]> ∅))))]>
         (<["num_fail_per_sec" := VMapInt64 (<[1700000001:=4]> ∅)]> ∅))))))))) in
  match deserializeStatsEntry stat with
  | (Some entry, None) =>
      (Method (embedded entry), medianResponseTime entry, avgResponseTime entry,
       avgContentLength entry, currentRps entry, currentFailPerSec entry) =
      ("GET", 100, 125%float, 102, 10, 4)
  | _ => False
  end.
Proof. vm_compute. reflexivity. Qed.

(** C5. Without a [user_count] key, [convertData] returns a nil snapshot and
    the error "user_count is not int32". *)
Theorem convertData_missing_user_count (data : gmap string value) :
  data !! "user_count" = None →
  convertData data = (None, Some (ErrorString "user_count is not int32")).
Proof. intros Hu. unfold convertData. by rewrite Hu. Qed.

Lemma convertData_missing_user_count_witness :
  (<["stats" := VSlice []]> (<["stats_total" := VNil]> ∅) : gmap string value)
    !! "user_count" = None ∧
  convertData (<["stats" := VSlice []]> (<["stats_total" := VNil]> ∅)) =
    (None, Some (ErrorString "user_count is not int32")).
Proof.
  assert (H : (<["stats" := VSlice []]> (<["stats_total" := VNil]> ∅)
                 : gmap string value) !! "user_count" = None).
  { vm_compute. reflexivity. }
  split; [exact H|].
  exact (convertData_missing_user_count _ H).
Defined.

(** C10. [convertData] passes the [user_count] check for an [int32] only: a
    value of any other dynamic type gives a nil snapshot and the error
    "user_count is not int32", while an [int32] moves on to the next check
    and ends up as the [UserCount] of the snapshot. *)
Theorem convertData_user_count_int32_only (data : gmap string value) (v : value) :
  data !! "user_count" = Some v →
  ((∀ n, v ≠ VInt32 n) →
     convertData data = (None, Some (ErrorString "user_count is not int32"))) ∧
  (∀ n, v = VInt32 n →
     (data !! "stats" = None →
        convertData data = (None, Some (ErrorString "stats is not []interface{}"))) ∧
     (∀ output, convertData data = (Some output, None) → UserCount output = n)).
Proof.
  intros Hu. split.
  - intros Hv. unfold convertData. rewrite Hu.
    destruct v; try reflexivity. by destruct (Hv n).
  - intros n ->. split.
    + intros Hs. unfold convertData. by rewrite Hu, Hs.
    + intros output Hc.
      apply convertData_Some in Hc as (n' & stats & Hu' & _ & <- & _).
      congruence.
Qed.

Lemma convertData_user_count_int32_only_witness :
  ((<["user_count" := VInt64 8]> (<["stats" := VSlice []]> ∅) : gmap string value)
     !! "user_count" = Some (VInt64 8) ∧
   (∀ n, VInt64 8 ≠ VInt32 n)) ∧
  convertData (<["user_count" := VInt64 8]> (<["stats" := VSlice []]> ∅)) =
    (None, Some (ErrorString "user_count is not int32")).
Proof.
  assert (H1 : (<["user_count" := VInt64 8]> (<["stats" := VSlice []]> ∅)
                  : gmap string value) !! "user_count" = Some (VInt64 8)).
  { vm_compute. reflexivity. }
  assert (H2 : ∀ n, VInt64 8 ≠ VInt32 n) by (intros n; discriminate).
  split; [auto|].
  exact (proj1 (convertData_user_count_int32_only _ _ H1) H2).
Defined.

(** C2 fails as stated: an event without [stats_total], and with a per-group
    object that has none of the expected members and one unknown member,
    decodes without an error; the total and the group are zero entries. *)
Lemma convertData_tolerates_absent_fields :
  (<["user_count" := VInt32 1]>
     (<["stats" := VSlice [VMap (<["bogus" := VInt 7]> ∅)]]> ∅)
     : gmap string value) !! "stats_total" = None ∧
  ∃ output,
    convertData (<["user_count" := VInt32 1]>
                   (<["stats" := VSlice [VMap (<["bogus" := VInt 7]> ∅)]]> ∅)) =
      (Some output, None) ∧
    embedded (TotalStats output) = zeroStatsEntry ∧
    embedded <$> Stats output = [zeroStatsEntry].
Proof.
  split; [vm_compute; reflexivity|].
  eexists. split; [vm_compute; reflexivity|].
  split; vm_compute; reflexivity.
Qed.

(** C2, amended. [convertData] returns either a snapshot and a nil error or
    a nil snapshot and an error. It fails when [user_count] is absent or
    not an [int32], when [stats] is absent or not a [[]interface{}], and
    when the transcoding of the [stats_total] value or of an element of
    [stats] fails; a snapshot it returns holds the user count, the decoded
    total with its rates, and the decoded elements. The transcoding of a
    value fails when the value cannot be marshalled, when it is neither an
    object nor null, and when a member that names a field does not fit the
    type of the field; a nil value, and an object whose members name no
    field, decode into the zero entry without an error. *)
Theorem convertData_all_or_nothing (data : gmap string value) :
  ((∃ output, convertData data = (Some output, None)) ∨
   (∃ err, convertData data = (None, Some err))) ∧
  ((∀ n, data !! "user_count" ≠ Some (VInt32 n)) →
     convertData data = (None, Some (ErrorString "user_count is not int32"))) ∧
  (∀ n stats,
     data !! "user_count" = Some (VInt32 n) →
     ((∀ l, data !! "stats" ≠ Some (VSlice l)) →
        convertData data = (None, Some (ErrorString "stats is not []interface{}"))) ∧
     (data !! "stats" = Some (VSlice stats) →
        (∀ err, deserializeStatsEntry (default VNil (data !! "stats_total")) =
                  (None, Some err) →
           convertData data = (None, Some err)) ∧
        (∀ stat, stat ∈ stats → (deserializeStatsEntry stat).2 ≠ None →
           ∃ err, convertData data = (None, Some err)) ∧
        (∀ output, convertData data = (Some output, None) →
           UserCount output = n ∧
           deserializeStatsEntry (default VNil (data !! "stats_total")) =
             (Some (TotalStats output), None) ∧
           TotalRPS output =
             getCurrentRps (NumRequests (embedded (TotalStats output)))
               (NumReqsPerSec (embedded (TotalStats output))) ∧
           TotalFailRatio output =
             getTotalFailRatio (NumRequests (embedded (TotalStats output)))
               (NumFailures (embedded (TotalStats output))) ∧
           Forall2 (λ stat entry, deserializeStatsEntry stat = (Some entry, None))
             stats (Stats output)))) ∧
  (∀ stat err, Json.Marshal stat = Err err →
     deserializeStatsEntry stat = (None, Some err)) ∧
  (∀ stat j, Json.Marshal stat = Ok j →
     j ≠ Json.JNull → (∀ members, j ≠ Json.JObject members) →
     deserializeStatsEntry stat =
       (None, Some (UnmarshalTypeError (Decode.kindOf j) ""))) ∧
  (∀ stat members k j f,
     Json.Marshal stat = Ok (Json.JObject members) →
     (k, j) ∈ members →
     Decode.findField k = Some f →
     (Decode.storeField f j zeroStatsEntry).2 ≠ None →
     ∃ err, deserializeStatsEntry stat = (None, Some err)) ∧
  (∀ stat members,
     stat = VNil ∨
     (Json.Marshal stat = Ok (Json.JObject members) ∧
      Forall (λ member, Decode.findField member.1 = None) members) →
     ∃ entryOutput,
       deserializeStatsEntry stat = (Some entryOutput, None) ∧
       embedded entryOutput = zeroStatsEntry).
Proof.
  split; [apply convertData_cases|].
  split.
  { intros Hu. unfold convertData.
    destruct (data !! "user_count") as [[]|]; try reflexivity. by destruct (Hu n). }
  split.
  { intros n stats Hu. split.
    - intros Hs. unfold convertData. rewrite Hu.
      destruct (data !! "stats") as [[]|]; try reflexivity. by destruct (Hs elems).
    - intros Hs. split; [|split].
      + intros err Ht. unfold convertData. by rewrite Hu, Hs, Ht.
      + intros stat Hin Hbad. unfold convertData. rewrite Hu, Hs.
        destruct (deserializeStatsEntry_cases (default VNil (data !! "stats_total")))
          as [[entry ->]|[err ->]]; [|eauto].
        by eapply convertStats_error.
      + intros output Hc.
        apply convertData_Some in Hc
          as (n' & stats' & Hu' & Hs' & <- & Ht & Hr & Hf & _ & Hall).
        rewrite Hu in Hu'. rewrite Hs in Hs'.
        injection Hu' as <-. injection Hs' as <-. by repeat split. }
  split.
  { intros stat err Hm. unfold deserializeStatsEntry. by rewrite Hm. }
  split.
  { intros stat j Hm Hnull Hobj. unfold deserializeStatsEntry. rewrite Hm.
    destruct j; cbn; try reflexivity; [done|by destruct (Hobj members)]. }
  split.
  { intros stat members k j f Hm Hin Hf Hbad.
    unfold deserializeStatsEntry. rewrite Hm. cbn.
    pose proof (storeMembers_mistyped members zeroStatsEntry None k j f Hin Hf Hbad) as Hne.
    destruct (Decode.storeMembers members zeroStatsEntry None) as [entry [err|]];
      [eauto|done]. }
  intros stat members [->|[Hm Hunknown]].
  - rewrite deserializeStatsEntry_nil. eauto.
  - unfold deserializeStatsEntry. rewrite Hm. cbn.
    rewrite storeMembers_unknown by done. eauto.
Qed.

Lemma convertData_all_or_nothing_witness :
  ((<["user_count" := VInt32 5]>
      (<["stats" := VSlice [VMap (<["num_requests" := VString "many"]> ∅)]]> ∅)
      : gmap string value) !! "user_count" = Some (VInt32 5) ∧
   (<["user_count" := VInt32 5]>
      (<["stats" := VSlice [VMap (<["num_requests" := VString "many"]> ∅)]]> ∅)
      : gmap string value) !! "stats" =
     Some (VSlice [VMap (<["num_requests" := VString "many"]> ∅)]) ∧
   Json.Marshal (VMap (<["num_requests" := VString "many"]> ∅)) =
     Ok (Json.JObject [("num_requests", Json.JString "many")]) ∧
   Decode.findField "num_requests" = Some Decode.FNumRequests ∧
   (Decode.storeField Decode.FNumRequests (Json.JString "many") zeroStatsEntry).2 ≠ None) ∧
  ∃ err,
    convertData (<["user_count" := VInt32 5]>
                   (<["stats" := VSlice [VMap (<["num_requests" := VString "many"]> ∅)]]> ∅)) =
      (None, Some err).
Proof.
  assert (H1 : (<["user_count" := VInt32 5]>
      (<["stats" := VSlice [VMap (<["num_requests" := VString "many"]> ∅)]]> ∅)
      : gmap string value) !! "user_count" = Some (VInt32 5)).
  { vm_compute. reflexivity. }
  assert (H2 : (<["user_count" := VInt32 5]>
      (<["stats" := VSlice [VMap (<["num_requests" := VString "many"]> ∅)]]> ∅)
      : gmap string value) !! "stats" =
     Some (VSlice [VMap (<["num_requests" := VString "many"]> ∅)])).
  { vm_compute. reflexivity. }
  assert (H3 : Json.Marshal (VMap (<["num_requests" := VString "many"]> ∅)) =
     Ok (Json.JObject [("num_requests", Json.JString "many")])).
  { vm_compute. reflexivity. }
  assert (H4 : Decode.findField "num_requests" = Some Decode.FNumRequests).
  { vm_compute. reflexivity. }
  assert (H5 : (Decode.storeField Decode.FNumRequests (Json.JString "many")
                  zeroStatsEntry).2 ≠ None).
  { vm_compute. discriminate. }
  split; [auto 10|].
  destruct (convertData_all_or_nothing
              (<["user_count" := VInt32 5]>
                 (<["stats" := VSlice [VMap (<["num_requests" := VString "many"]> ∅)]]> ∅)))
    as (_ & _ & Hstats & _ & _ & Hmember & _).
  destruct (Hmember _ _ _ _ _ H3 (list_elem_of_here _ _) H4 H5) as [e He].
  destruct (Hstats 5 [VMap (<["num_requests" := VString "many"]> ∅)] H1) as (_ & Hgroup).
  destruct (Hgroup H2) as (_ & Hfail & _).
  apply (Hfail (VMap (<["num_requests" := VString "many"]> ∅))).
  - apply list_elem_of_here.
  - rewrite He. discriminate.
Defined.

(** C9. With an [int32] user count and a stats list whose elements decode,
    an event without [stats_total], or with a nil one, decodes without an
    error: nil is marshalled as [null], which leaves the entry at its zero
    value, so the total has zero counters and zero derived metrics. *)
Theorem absent_total_decodes_to_zero (data : gmap string value) (n : Z)
    (stats : list value) :
  data !! "user_count" = Some (VInt32 n) →
  data !! "stats" = Some (VSlice stats) →
  data !! "stats_total" = None ∨ data !! "stats_total" = Some VNil →
  Forall (λ stat, (deserializeStatsEntry stat).2 = None) stats →
  Json.Marshal VNil = Ok Json.JNull ∧
  Decode.Unmarshal Json.JNull zeroStatsEntry = (zeroStatsEntry, None) ∧
  ∃ output,
    convertData data = (Some output, None) ∧
    embedded (TotalStats output) = zeroStatsEntry ∧
    medianResponseTime (TotalStats output) = 0 ∧
    avgResponseTime (TotalStats output) = 0%float ∧
    avgContentLength (TotalStats output) = 0 ∧
    currentRps (TotalStats output) = 0 ∧
    currentFailPerSec (TotalStats output) = 0 ∧
    TotalRPS output = 0 ∧
    TotalFailRatio output = 0%float.
Proof.
  intros Hu Hs Ht Hall. split; [reflexivity|]. split; [reflexivity|].
  assert (default VNil (data !! "stats_total") = VNil) as Hnil.
  { by destruct Ht as [-> | ->]. }
  unfold convertData. rewrite Hu, Hs, Hnil, deserializeStatsEntry_nil.
  match goal with
  | |- ∃ _, convertStats stats ?o = _ ∧ _ =>
      destruct (convertStats_ok stats o Hall) as [output Hc]
  end.
  exists output. split; [exact Hc|].
  apply convertStats_Some in Hc as (_ & -> & -> & -> & _).
  by repeat split.
Qed.

Lemma absent_total_decodes_to_zero_witness :
  ((<["user_count" := VInt32 3]>
      (<["stats" := VSlice [VMap (<["name" := VString "/"]> ∅)]]> ∅)
      : gmap string value) !! "user_count" = Some (VInt32 3) ∧
   (<["user_count" := VInt32 3]>
      (<["stats" := VSlice [VMap (<["name" := VString "/"]> ∅)]]> ∅)
      : gmap string value) !! "stats" =
     Some (VSlice [VMap (<["name" := VString "/"]> ∅)]) ∧
   (<["user_count" := VInt32 3]>
      (<["stats" := VSlice [VMap (<["name" := VString "/"]> ∅)]]> ∅)
      : gmap string value) !! "stats_total" = None ∧
   Forall (λ stat, (deserializeStatsEntry stat).2 = None)
     [VMap (<["name" := VString "/"]> ∅)]) ∧
  ∃ output,
    convertData (<["user_count" := VInt32 3]>
                   (<["stats" := VSlice [VMap (<["name" := VString "/"]> ∅)]]> ∅)) =
      (Some output, None) ∧
    embedded (TotalStats output) = zeroStatsEntry ∧
    TotalRPS output = 0 ∧
    TotalFailRatio output = 0%float.
Proof.
  assert (H1 : (<["user_count" := VInt32 3]>
      (<["stats" := VSlice [VMap (<["name" := VString "/"]> ∅)]]> ∅)
      : gmap string value) !! "user_count" = Some (VInt32 3)).
  { vm_compute. reflexivity. }
  assert (H2 : (<["user_count" := VInt32 3]>
      (<["stats" := VSlice [VMap (<["name" := VString "/"]> ∅)]]> ∅)
      : gmap string value) !! "stats" =
     Some (VSlice [VMap (<["name" := VString "/"]> ∅)])).
  { vm_compute. reflexivity. }
  assert (H3 : (<["user_count" := VInt32 3]>
      (<["stats" := VSlice [VMap (<["name" := VString "/"]> ∅)]]> ∅)
      : gmap string value) !! "stats_total" = None).
  { vm_compute. reflexivity. }
  assert (H4 : Forall (λ stat, (deserializeStatsEntry stat).2 = None)
                 [VMap (<["name" := VString "/"]> ∅)]).
  { constructor; [vm_compute; reflexivity|constructor]. }
  split; [auto|].
  destruct (absent_total_decodes_to_zero _ _ _ H1 H2 (or_introl H3) H4)
    as (_ & _ & output & Hc & Hz & _ & _ & _ & _ & _ & Hr & Hf).
  exists output. auto.
Defined.

(** ** Sinks *)

Lemma table_rows (stats : list statsEntryOutput) (table : list (list cell)) :
  foldl (λ table stat, table ++ [tableRow stat]) table stats =
    table ++ (tableRow <$> stats).
Proof.
  revert table. induction stats as [|stat rest IH]; intros table; cbn.
  - by rewrite app_nil_r.
  - by rewrite IH, <- app_assoc.
Qed.

Lemma setStatGauges_trace (w : world) (stat : statsEntryOutput) :
  trace (setStatGauges w stat) = trace w ++ statGaugeUpdates stat.
Proof. unfold statGaugeUpdates, setStatGauges. cbn. by rewrite <- !app_assoc. Qed.

Lemma setStatGauges_gauges (w : world) (stat : statsEntryOutput) :
  gauges (setStatGauges w stat) =
    gauges (setStatGauges {| gauges := gauges w; trace := [] |} stat).
Proof. reflexivity. Qed.

Lemma stat_gauges_trace (stats : list statsEntryOutput) (w : world) :
  trace (foldl setStatGauges w stats) =
    trace w ++ concat (statGaugeUpdates <$> stats).
Proof.
  revert w. induction stats as [|stat rest IH]; intros w; cbn.
  - by rewrite app_nil_r.
  - by rewrite IH, setStatGauges_trace, <- app_assoc.
Qed.

Lemma stat_gauges_frame (stats : list statsEntryOutput) (w w' : world) :
  gauges w = gauges w' →
  gauges (foldl setStatGauges w stats) = gauges (foldl setStatGauges w' stats).
Proof.
  revert w w'. induction stats as [|stat rest IH]; intros w w' Hg; cbn; [done|].
  apply IH. by rewrite (setStatGauges_gauges w), (setStatGauges_gauges w'), Hg.
Qed.

(** A tick of either sink appends to the trace effects that do not depend on
    the trace so far, and leaves gauges that depend on the gauges so far
    only. *)
Lemma ConsoleOutput_OnEvent_frame (o : ConsoleOutput) (now : Z)
    (data : gmap string value) :
  ∃ new, ∀ w,
    trace (ConsoleOutput_OnEvent o now data w) = trace w ++ new ∧
    gauges (ConsoleOutput_OnEvent o now data w) = gauges w.
Proof.
  unfold ConsoleOutput_OnEvent.
  destruct (convertData data) as [[output|] [err|]].
  - eexists. intros w. split; reflexivity.
  - eexists. intros w. cbn. rewrite <- !app_assoc. split; reflexivity.
  - eexists. intros w. split; reflexivity.
  - exists []. intros w. by rewrite app_nil_r.
Qed.

Lemma PrometheusPusherOutput_OnEvent_frame (o : PrometheusPusherOutput)
    (push : option error) (data : gmap string value) :
  ∃ new, ∀ w,
    trace (PrometheusPusherOutput_OnEvent o push data w) = trace w ++ new ∧
    ∀ w', gauges w = gauges w' →
      gauges (PrometheusPusherOutput_OnEvent o push data w) =
      gauges (PrometheusPusherOutput_OnEvent o push data w').
Proof.
  unfold PrometheusPusherOutput_OnEvent.
  destruct (convertData data) as [[output|] [err|]].
  - eexists. intros w. split; [reflexivity|]. by intros w' Hg.
  - exists ([GaugeSet gaugeUsers [] (Int64.to_float64 (UserCount output));
             GaugeSet gaugeTotalRPS [] (Int64.to_float64 (TotalRPS output));
             GaugeSet gaugeTotalFailRatio [] (TotalFailRatio output)] ++
            concat (statGaugeUpdates <$> Stats output) ++
            PushGateway push ::
              match push with
              | Some err => [LogPushError (pusherLogger o) err]
              | None => []
              end).
    intros w. split.
    + destruct push; cbn; rewrite stat_gauges_trace; cbn;
        by rewrite <- !app_assoc.
    + intros w' Hg. destruct push; cbn; apply stat_gauges_frame; cbn; by rewrite Hg.
  - eexists. intros w. split; [reflexivity|]. by intros w' Hg.
  - exists []. intros w. rewrite app_nil_r. split; [reflexivity|]. by intros w' Hg.
Qed.

(** C6. The entries of a decoded snapshot are the decoded elements of the
    input list, one for one and in the same order; the rows of the console
    table and the gauge updates follow the entries in that order. *)
Theorem stats_keep_input_order (data : gmap string value) (stats : list value)
    (output : dataOutput) :
  data !! "stats" = Some (VSlice stats) →
  convertData data = (Some output, None) →
  length (Stats output) = length stats ∧
  Forall2 (λ stat entry, deserializeStatsEntry stat = (Some entry, None))
    stats (Stats output) ∧
  (∀ i stat, stats !! i = Some stat →
     ∃ entry, Stats output !! i = Some entry ∧
              deserializeStatsEntry stat = (Some entry, None)) ∧
  (∀ o now w, ∃ summary,
     trace (ConsoleOutput_OnEvent o now data w) =
       trace w ++ [summary;
                   RenderTable (consoleLogger o) tableHeader (tableRow <$> Stats output);
                   LogBlank (consoleLogger o)]) ∧
  (∀ o push w, ∃ totals rest,
     length totals = 3%nat ∧
     trace (PrometheusPusherOutput_OnEvent o push data w) =
       trace w ++ totals ++ concat (statGaugeUpdates <$> Stats output) ++
       PushGateway push :: rest).
Proof.
  intros Hs Hc.
  pose proof (convertData_Some _ _ Hc) as (n & stats' & _ & Hs' & _ & _ & _ & _ & _ & Hall).
  rewrite Hs in Hs'. injection Hs' as <-.
  split; [symmetry; by eapply Forall2_length|].
  split; [exact Hall|]. split.
  { intros i stat Hi.
    destruct (Forall2_lookup_l _ _ _ _ _ Hall Hi) as (entry & He & Hd). eauto. }
  split.
  - intros o now w. unfold ConsoleOutput_OnEvent. rewrite Hc. cbn.
    rewrite table_rows. cbn. eexists. by rewrite <- !app_assoc.
  - intros o push w. unfold PrometheusPusherOutput_OnEvent. rewrite Hc.
    exists [GaugeSet gaugeUsers [] (Int64.to_float64 (UserCount output));
            GaugeSet gaugeTotalRPS [] (Int64.to_float64 (TotalRPS output));
            GaugeSet gaugeTotalFailRatio [] (TotalFailRatio output)].
    exists (match push with
            | Some err => [LogPushError (pusherLogger o) err]
            | None => []
            end).
    split; [reflexivity|].
    destruct push; cbn; rewrite stat_gauges_trace; cbn; by rewrite <- !app_assoc.
Qed.

Lemma stats_keep_input_order_witness :
  ∃ output,
    ((<["user_count" := VInt32 2]>
        (<["stats" := VSlice [VMap (<["name" := VString "b"]> ∅);
                              VMap (<["name" := VString "a"]> ∅);
                              VMap (<["name" := VString "b"]> ∅)]]> ∅)
        : gmap string value) !! "stats" =
       Some (VSlice [VMap (<["name" := VString "b"]> ∅);
                     VMap (<["name" := VString "a"]> ∅);
                     VMap (<["name" := VString "b"]> ∅)]) ∧
     convertData
       (<["user_count" := VInt32 2]>
          (<["stats" := VSlice [VMap (<["name" := VString "b"]> ∅);
                                VMap (<["name" := VString "a"]> ∅);
                                VMap (<["name" := VString "b"]> ∅)]]> ∅)) =
       (Some output, None)) ∧
    length (Stats output) = 3%nat.
Proof.
  assert (H1 : (<["user_count" := VInt32 2]>
        (<["stats" := VSlice [VMap (<["name" := VString "b"]> ∅);
                              VMap (<["name" := VString "a"]> ∅);
                              VMap (<["name" := VString "b"]> ∅)]]> ∅)
        : gmap string value) !! "stats" =
       Some (VSlice [VMap (<["name" := VString "b"]> ∅);
                     VMap (<["name" := VString "a"]> ∅);
                     VMap (<["name" := VString "b"]> ∅)])).
  { vm_compute. reflexivity. }
  destruct (convertData_cases
       (<["user_count" := VInt32 2]>
          (<["stats" := VSlice [VMap (<["name" := VString "b"]> ∅);
                                VMap (<["name" := VString "a"]> ∅);
                                VMap (<["name" := VString "b"]> ∅)]]> ∅)))
    as [[output Hc]|[err Hc]].
  - exists output. split; [auto|].
    exact (proj1 (stats_keep_input_order _ _ _ H1 Hc)).
  - vm_compute in Hc. discriminate Hc.
Defined.

(** C7. When the event does not decode, a tick of either sink logs the
    error and does nothing else: no table, no gauge update, no push. What
    the next tick appends to the trace and the gauges it leaves are the same
    as if the failed tick had not taken place. *)
Theorem decode_failure_skips_tick (data : gmap string value) (err : error)
    (c : ConsoleOutput) (p : PrometheusPusherOutput) (now : Z)
    (push : option error) (w : world) :
  (convertData data).2 = Some err →
  ConsoleOutput_OnEvent c now data w = emit (LogConvertError (consoleLogger c) err) w ∧
  PrometheusPusherOutput_OnEvent p push data w =
    emit (LogConvertError (pusherLogger p) err) w ∧
  trace (ConsoleOutput_OnEvent c now data w) =
    trace w ++ [LogConvertError (consoleLogger c) err] ∧
  trace (PrometheusPusherOutput_OnEvent p push data w) =
    trace w ++ [LogConvertError (pusherLogger p) err] ∧
  gauges (PrometheusPusherOutput_OnEvent p push data w) = gauges w ∧
  (∀ now' data', ∃ new,
     trace (ConsoleOutput_OnEvent c now' data' w) = trace w ++ new ∧
     trace (ConsoleOutput_OnEvent c now' data' (ConsoleOutput_OnEvent c now data w)) =
       trace (ConsoleOutput_OnEvent c now data w) ++ new ∧
     gauges (ConsoleOutput_OnEvent c now' data' (ConsoleOutput_OnEvent c now data w)) =
       gauges (ConsoleOutput_OnEvent c now' data' w)) ∧
  (∀ push' data', ∃ new,
     trace (PrometheusPusherOutput_OnEvent p push' data' w) = trace w ++ new ∧
     trace (PrometheusPusherOutput_OnEvent p push' data'
              (PrometheusPusherOutput_OnEvent p push data w)) =
       trace (PrometheusPusherOutput_OnEvent p push data w) ++ new ∧
     gauges (PrometheusPusherOutput_OnEvent p push' data'
               (PrometheusPusherOutput_OnEvent p push data w)) =
       gauges (PrometheusPusherOutput_OnEvent p push' data' w)).
Proof.
  intros Herr.
  assert (ConsoleOutput_OnEvent c now data w =
            emit (LogConvertError (consoleLogger c) err) w) as Hc.
  { unfold ConsoleOutput_OnEvent.
    destruct (convertData data) as [[output|] [e|]]; cbn in Herr; by simplify_eq. }
  assert (PrometheusPusherOutput_OnEvent p push data w =
            emit (LogConvertError (pusherLogger p) err) w) as Hp.
  { unfold PrometheusPusherOutput_OnEvent.
    destruct (convertData data) as [[output|] [e|]]; cbn in Herr; by simplify_eq. }
  rewrite Hc, Hp. repeat (split; [reflexivity|]). split.
  - intros now' data'.
    destruct (ConsoleOutput_OnEvent_frame c now' data') as [new Hnew].
    exists new. destruct (Hnew w) as [Ht Hg].
    destruct (Hnew (emit (LogConvertError (consoleLogger c) err) w)) as [Ht' Hg'].
    by rewrite Ht, Ht', Hg, Hg'.
  - intros push' data'.
    destruct (PrometheusPusherOutput_OnEvent_frame p push' data') as [new Hnew].
    exists new. destruct (Hnew w) as [Ht _].
    destruct (Hnew (emit (LogConvertError (pusherLogger p) err) w)) as [Ht' Hg'].
    rewrite Ht, Ht'. repeat split. by apply Hg'.
Qed.

Lemma decode_failure_skips_tick_witness :
  (convertData (<["stats" := VSlice []]> ∅)).2 =
    Some (ErrorString "user_count is not int32") ∧
  ConsoleOutput_OnEvent {| consoleLogger := "stderr" |} 0
    (<["stats" := VSlice []]> ∅) {| gauges := ∅; trace := [] |} =
    {| gauges := ∅;
       trace := [LogConvertError "stderr" (ErrorString "user_count is not int32")] |} ∧
  PrometheusPusherOutput_OnEvent
    {| gatewayURL := "http://gateway"; jobName := "boomer"; pusherLogger := "stderr" |}
    None (<["stats" := VSlice []]> ∅) {| gauges := ∅; trace := [] |} =
    {| gauges := ∅;
       trace := [LogConvertError "stderr" (ErrorString "user_count is not int32")] |}.
Proof.
  assert (H : (convertData (<["stats" := VSlice []]> ∅)).2 =
                Some (ErrorString "user_count is not int32")).
  { vm_compute. reflexivity. }
  split; [exact H|].
  destruct (decode_failure_skips_tick _ _ {| consoleLogger := "stderr" |}
              {| gatewayURL := "http://gateway"; jobName := "boomer";
                 pusherLogger := "stderr" |}
              0 None {| gauges := ∅; trace := [] |} H) as (Hc & Hp & _).
  rewrite Hc, Hp. split; reflexivity.
Defined.

(** * Further properties of the code *)

(** ** The median as an order statistic *)

Lemma medianLoop_key (responseTimes : gmap Z Z) (sortedKeys : list Z) (pos : Z) :
  medianLoop responseTimes sortedKeys pos = 0 ∨
  medianLoop responseTimes sortedKeys pos ∈ sortedKeys.
Proof.
  revert pos. induction sortedKeys as [|k rest IH]; intros pos; cbn; [by left|].
  destruct (decide (pos < default 0 (responseTimes !! k))).
  - right. apply list_elem_of_here.
  - destruct (IH (Int64.sub pos (default 0 (responseTimes !! k)))) as [->|Hin];
      [by left|right; by apply list_elem_of_further].
Qed.

(** X1. The median is a key of the histogram, or the fallback 0. *)
Theorem median_is_key_or_zero (rangeKeys : list Z) (numRequests : Z)
    (responseTimes : gmap Z Z) :
  rangeKeys ≡ₚ (map_to_list responseTimes).*1 →
  getMedianResponseTimeIn rangeKeys numRequests responseTimes = 0 ∨
  is_Some (responseTimes !! getMedianResponseTimeIn rangeKeys numRequests responseTimes).
Proof.
  intros Hrange. unfold getMedianResponseTimeIn.
  destruct (decide (size responseTimes ≠ 0%nat)); [|by left].
  destruct (medianLoop_key responseTimes (merge_sort Z.le rangeKeys)
              (Int64.div (Int64.sub numRequests 1) 2)) as [->|Hin]; [by left|right].
  set (median := medianLoop _ _ _) in *. clearbody median.
  rewrite merge_sort_Permutation, Hrange in Hin.
  apply list_elem_of_fmap in Hin as ([k c] & -> & Hin).
  apply elem_of_map_to_list in Hin. cbn. by rewrite Hin.
Qed.

Lemma median_is_key_or_zero_witness :
  [7; 5] ≡ₚ (map_to_list (<[5:=1]> (<[7:=1]> (∅ : gmap Z Z)))).*1 ∧
  (getMedianResponseTimeIn [7; 5] 4 (<[5:=1]> (<[7:=1]> ∅)) = 0 ∨
   is_Some ((<[5:=1]> (<[7:=1]> (∅ : gmap Z Z))) !!
              getMedianResponseTimeIn [7; 5] 4 (<[5:=1]> (<[7:=1]> ∅)))).
Proof.
  assert (H : [7; 5] ≡ₚ (map_to_list (<[5:=1]> (<[7:=1]> (∅ : gmap Z Z)))).*1).
  { apply (bool_decide_unpack _). vm_compute. exact I. }
  split; [exact H|].
  exact (median_is_key_or_zero [7; 5] 4 (<[5:=1]> (<[7:=1]> ∅)) H).
Defined.

(** With counts that are not negative and a position inside the histogram,
    the walk stops at the bucket that holds the position: the counts before
    it sum to at most the position, and with its own count to more. *)
Lemma walkBuckets_split (buckets : list (Z * Z)) (pos : Z) :
  Forall (λ b, 0 ≤ b.2) buckets →
  0 ≤ pos ≤ Int64.max_int →
  pos < foldr Z.add 0 buckets.*2 →
  ∃ before k c after,
    buckets = before ++ (k, c) :: after ∧
    foldr Z.add 0 before.*2 ≤ pos < foldr Z.add 0 before.*2 + c ∧
    walkBuckets buckets pos = Some k.
Proof.
  intros Hall. revert pos.
  induction Hall as [|[k c] bs Hc Hbs IH]; intros pos Hpos Hsum; cbn in *; [lia|].
  destruct (decide (pos < c)) as [Hlt|Hge].
  - exists [], k, c, bs. cbn. repeat split; lia.
  - unfold Int64.sub. rewrite wrap64_id
      by (unfold Int64.in_range, Int64.min_int, Int64.max_int in *; lia).
    destruct (IH (pos - c)) as (before & k' & c' & after & -> & Hb & Hw); [lia|lia|].
    exists ((k, c) :: before), k', c', after. cbn. repeat split; [lia|lia|done].
Qed.

Lemma medianPosition_div (numRequests : Z) :
  1 ≤ numRequests ≤ Int64.max_int →
  medianPosition numRequests = (numRequests - 1) `div` 2.
Proof.
  intros Hn. rewrite medianPosition_quot
    by (unfold Int64.min_int, Int64.max_int in *; lia).
  apply Z.quot_div_nonneg; lia.
Qed.

Lemma median_order_statistic_aux (rangeKeys : list Z) (numRequests : Z)
    (responseTimes : gmap Z Z) (buckets : list (Z * Z)) :
  rangeKeys ≡ₚ (map_to_list responseTimes).*1 →
  buckets ≡ₚ map_to_list responseTimes →
  Sorted keyAscending buckets →
  (∀ k c, responseTimes !! k = Some c → 0 ≤ c) →
  1 ≤ numRequests ≤ Int64.max_int →
  (numRequests - 1) `div` 2 < totalCount responseTimes →
  ∃ before k c after,
    buckets = before ++ (k, c) :: after ∧
    foldr Z.add 0 before.*2 ≤ (numRequests - 1) `div` 2
      < foldr Z.add 0 before.*2 + c ∧
    responseTimes !! k = Some c ∧
    getMedianResponseTimeIn rangeKeys numRequests responseTimes = k.
Proof.
  intros Hrange Hperm Hsorted Hnonneg Hn Hpos.
  rewrite (getMedianResponseTimeIn_walk _ _ _ _ Hrange Hperm Hsorted).
  rewrite medianPosition_div by done.
  assert (Forall (λ b, 0 ≤ b.2) buckets) as Hall.
  { apply Forall_forall. intros [k c] Hin. rewrite Hperm in Hin.
    apply elem_of_map_to_list in Hin. cbn. by eapply Hnonneg. }
  unfold totalCount in Hpos.
  rewrite <- (sum_counts_perm buckets.*2) in Hpos by (by rewrite Hperm).
  destruct (walkBuckets_split buckets ((numRequests - 1) `div` 2) Hall)
    as (before & k & c & after & Hb & Hsum & Hw); [|done|].
  { unfold Int64.max_int in *. split; [apply Z.div_pos; lia|].
    apply Z.div_le_upper_bound; lia. }
  exists before, k, c, after. rewrite Hw. repeat split; try done; try lia.
  apply elem_of_map_to_list. rewrite <- Hperm, Hb.
  apply elem_of_app. right. apply list_elem_of_here.
Qed.

(** X2. For a histogram with counts that are not negative and a request count of
    at least 1 whose position [(numRequests - 1) / 2] lies inside the
    histogram, the median is the key of the bucket that holds that position
    in ascending key order; that bucket is not empty. *)
Theorem median_order_statistic (rangeKeys : list Z) (numRequests : Z)
    (responseTimes : gmap Z Z) (buckets : list (Z * Z)) :
  rangeKeys ≡ₚ (map_to_list responseTimes).*1 →
  buckets ≡ₚ map_to_list responseTimes →
  Sorted keyAscending buckets →
  (∀ k c, responseTimes !! k = Some c → 0 ≤ c) →
  1 ≤ numRequests ≤ Int64.max_int →
  (numRequests - 1) `div` 2 < totalCount responseTimes →
  ∃ before k c after,
    buckets = before ++ (k, c) :: after ∧
    foldr Z.add 0 before.*2 ≤ (numRequests - 1) `div` 2
      < foldr Z.add 0 before.*2 + c ∧
    responseTimes !! k = Some c ∧ 0 < c ∧
    getMedianResponseTimeIn rangeKeys numRequests responseTimes = k.
Proof.
  intros Hrange Hperm Hsorted Hnonneg Hn Hpos.
  destruct (median_order_statistic_aux _ _ _ _ Hrange Hperm Hsorted Hnonneg Hn Hpos)
    as (before & k & c & after & Hb & Hsum & Hk & Hm).
  exists before, k, c, after. repeat split; try done; lia.
Qed.

Lemma median_order_statistic_witness :
  ([300; 100; 200] ≡ₚ (map_to_list (<[100:=1]> (<[200:=1]> (<[300:=4]> (∅ : gmap Z Z))))).*1 ∧
   [(100, 1); (200, 1); (300, 4)] ≡ₚ
     map_to_list (<[100:=1]> (<[200:=1]> (<[300:=4]> (∅ : gmap Z Z)))) ∧
   Sorted keyAscending [(100, 1); (200, 1); (300, 4)] ∧
   (∀ k c, (<[100:=1]> (<[200:=1]> (<[300:=4]> (∅ : gmap Z Z)))) !! k = Some c → 0 ≤ c) ∧
   1 ≤ 6 ≤ Int64.max_int ∧
   (6 - 1) `div` 2 < totalCount (<[100:=1]> (<[200:=1]> (<[300:=4]> ∅)))) ∧
  ∃ before k c after,
    [(100, 1); (200, 1); (300, 4)] = before ++ (k, c) :: after ∧
    getMedianResponseTimeIn [300; 100; 200] 6
      (<[100:=1]> (<[200:=1]> (<[300:=4]> ∅))) = k.
Proof.
  assert (H1 : [300; 100; 200] ≡ₚ
                 (map_to_list (<[100:=1]> (<[200:=1]> (<[300:=4]> (∅ : gmap Z Z))))).*1).
  { apply (bool_decide_unpack _). vm_compute. exact I. }
  assert (H2 : [(100, 1); (200, 1); (300, 4)] ≡ₚ
                 map_to_list (<[100:=1]> (<[200:=1]> (<[300:=4]> (∅ : gmap Z Z))))).
  { apply (bool_decide_unpack _). vm_compute. exact I. }
  assert (H3 : Sorted keyAscending [(100, 1); (200, 1); (300, 4)]).
  { apply (bool_decide_unpack _). vm_compute. exact I. }
  assert (H4 : ∀ k c, (<[100:=1]> (<[200:=1]> (<[300:=4]> (∅ : gmap Z Z)))) !! k = Some c
                      → 0 ≤ c).
  { intros k c Hk. apply elem_of_map_to_list in Hk. rewrite <- H2 in Hk.
    repeat (apply elem_of_cons in Hk as [[= -> ->]|Hk]; [lia|]).
    by apply elem_of_nil in Hk. }
  assert (H5 : 1 ≤ 6 ≤ Int64.max_int) by (unfold Int64.max_int; lia).
  assert (H6 : (6 - 1) `div` 2 < totalCount (<[100:=1]> (<[200:=1]> (<[300:=4]> ∅)))).
  { vm_compute. reflexivity. }
  split; [auto 10|].
  destruct (median_order_statistic _ _ _ _ H1 H2 H3 H4 H5 H6)
    as (before & k & c & after & Hb & _ & _ & _ & Hm).
  exists before, k, c, after. auto.
Defined.

(** X3. When the counts of the histogram sum to the request count, the median
    splits the requests: fewer than half of them lie in buckets below the
    median, and at least half in the buckets up to and including it. *)
Theorem median_splits_consistent_histogram (rangeKeys : list Z) (numRequests : Z)
    (responseTimes : gmap Z Z) (buckets : list (Z * Z)) :
  rangeKeys ≡ₚ (map_to_list responseTimes).*1 →
  buckets ≡ₚ map_to_list responseTimes →
  Sorted keyAscending buckets →
  (∀ k c, responseTimes !! k = Some c → 0 ≤ c) →
  1 ≤ numRequests ≤ Int64.max_int →
  totalCount responseTimes = numRequests →
  ∃ before c after,
    buckets =
      before ++ (getMedianResponseTimeIn rangeKeys numRequests responseTimes, c) :: after ∧
    2 * foldr Z.add 0 before.*2 < numRequests ∧
    numRequests ≤ 2 * (foldr Z.add 0 before.*2 + c).
Proof.
  intros Hrange Hperm Hsorted Hnonneg Hn Htotal.
  destruct (median_order_statistic_aux _ numRequests _ _ Hrange Hperm Hsorted Hnonneg Hn)
    as (before & k & c & after & Hb & Hsum & Hk & Hm).
  { rewrite Htotal. apply Z.div_lt_upper_bound; lia. }
  exists before, c, after. rewrite Hm. split; [done|].
  pose proof (Z.div_mod (numRequests - 1) 2 ltac:(lia)).
  pose proof (Z.mod_pos_bound (numRequests - 1) 2 ltac:(lia)). lia.
Qed.

Lemma median_splits_consistent_histogram_witness :
  ([300; 100; 200] ≡ₚ (map_to_list (<[100:=3]> (<[200:=2]> (<[300:=1]> (∅ : gmap Z Z))))).*1 ∧
   [(100, 3); (200, 2); (300, 1)] ≡ₚ
     map_to_list (<[100:=3]> (<[200:=2]> (<[300:=1]> (∅ : gmap Z Z)))) ∧
   Sorted keyAscending [(100, 3); (200, 2); (300, 1)] ∧
   (∀ k c, (<[100:=3]> (<[200:=2]> (<[300:=1]> (∅ : gmap Z Z)))) !! k = Some c → 0 ≤ c) ∧
   1 ≤ 6 ≤ Int64.max_int ∧
   totalCount (<[100:=3]> (<[200:=2]> (<[300:=1]> ∅))) = 6) ∧
  ∃ before c after,
    [(100, 3); (200, 2); (300, 1)] =
      before ++ (getMedianResponseTimeIn [300; 100; 200] 6
                   (<[100:=3]> (<[200:=2]> (<[300:=1]> ∅))), c) :: after ∧
    2 * foldr Z.add 0 before.*2 < 6 ∧
    6 ≤ 2 * (foldr Z.add 0 before.*2 + c).
Proof.
  assert (H1 : [300; 100; 200] ≡ₚ
                 (map_to_list (<[100:=3]> (<[200:=2]> (<[300:=1]> (∅ : gmap Z Z))))).*1).
  { apply (bool_decide_unpack _). vm_compute. exact I. }
  assert (H2 : [(100, 3); (200, 2); (300, 1)] ≡ₚ
                 map_to_list (<[100:=3]> (<[200:=2]> (<[300:=1]> (∅ : gmap Z Z))))).
  { apply (bool_decide_unpack _). vm_compute. exact I. }
  assert (H3 : Sorted keyAscending [(100, 3); (200, 2); (300, 1)]).
  { apply (bool_decide_unpack _). vm_compute. exact I. }
  assert (H4 : ∀ k c, (<[100:=3]> (<[200:=2]> (<[300:=1]> (∅ : gmap Z Z)))) !! k = Some c
                      → 0 ≤ c).
  { intros k c Hk. apply elem_of_map_to_list in Hk. rewrite <- H2 in Hk.
    repeat (apply elem_of_cons in Hk as [[= -> ->]|Hk]; [lia|]).
    by apply elem_of_nil in Hk. }
  assert (H5 : 1 ≤ 6 ≤ Int64.max_int) by (unfold Int64.max_int; lia).
  assert (H6 : totalCount (<[100:=3]> (<[200:=2]> (<[300:=1]> ∅))) = 6).
  { vm_compute. reflexivity. }
  split; [auto 10|].
  exact (median_splits_consistent_histogram _ _ _ _ H1 H2 H3 H4 H5 H6).
Defined.

Local Instance keyAscending_transitive : Transitive keyAscending.
Proof. unfold keyAscending. intros x y z. lia. Qed.

Lemma walkBuckets_mono (buckets : list (Z * Z)) (pos pos' : Z) :
  StronglySorted keyAscending buckets →
  Forall (λ b, 0 ≤ b.2) buckets →
  0 ≤ pos ≤ pos' → pos' ≤ Int64.max_int →
  pos' < foldr Z.add 0 buckets.*2 →
  ∃ k k', walkBuckets buckets pos = Some k ∧
          walkBuckets buckets pos' = Some k' ∧ k ≤ k'.
Proof.
  intros Hsorted Hall. revert pos pos'.
  induction Hall as [|[k c] bs Hc Hbs IH]; intros pos pos' Hpos Hmax Hsum;
    cbn in *; [lia|].
  apply StronglySorted_inv in Hsorted as [Hsorted Hhd].
  assert (∀ p, c ≤ p ≤ Int64.max_int → Int64.sub p c = p - c) as Hsub.
  { intros p Hp. unfold Int64.sub. apply wrap64_id.
    unfold Int64.in_range, Int64.min_int, Int64.max_int in *. lia. }
  destruct (decide (pos' < c)) as [Hlt'|Hge'].
  - destruct (decide (pos < c)); [|lia]. exists k, k. repeat split; lia.
  - rewrite (Hsub pos') by lia.
    destruct (decide (pos < c)) as [Hlt|Hge].
    + destruct (walkBuckets_split bs (pos' - c) Hbs)
        as (before & k' & c' & after & -> & _ & Hw); [lia|lia|].
      exists k, k'. repeat split; [done|].
      rewrite Forall_forall in Hhd.
      assert (keyAscending (k, c) (k', c')) as Hlt'.
      { apply Hhd. apply elem_of_app. right. apply list_elem_of_here. }
      unfold keyAscending in Hlt'. cbn in Hlt'. lia.
    + rewrite (Hsub pos) by lia. apply IH; [done|lia|lia|lia].
Qed.

(** X4. For counts that are not negative, a larger request count never gives a
    smaller median, as long as the position of the larger one lies inside
    the histogram. *)
Theorem median_monotone (rangeKeys rangeKeys' : list Z) (numRequests numRequests' : Z)
    (responseTimes : gmap Z Z) (buckets : list (Z * Z)) :
  rangeKeys ≡ₚ (map_to_list responseTimes).*1 →
  rangeKeys' ≡ₚ (map_to_list responseTimes).*1 →
  buckets ≡ₚ map_to_list responseTimes →
  Sorted keyAscending buckets →
  (∀ k c, responseTimes !! k = Some c → 0 ≤ c) →
  1 ≤ numRequests ≤ numRequests' → numRequests' ≤ Int64.max_int →
  (numRequests' - 1) `div` 2 < totalCount responseTimes →
  getMedianResponseTimeIn rangeKeys numRequests responseTimes ≤
  getMedianResponseTimeIn rangeKeys' numRequests' responseTimes.
Proof.
  intros Hrange Hrange' Hperm Hsorted Hnonneg Hn Hmax Hpos.
  rewrite (getMedianResponseTimeIn_walk _ _ _ _ Hrange Hperm Hsorted).
  rewrite (getMedianResponseTimeIn_walk _ _ _ _ Hrange' Hperm Hsorted).
  rewrite !medianPosition_div by lia.
  unfold totalCount in Hpos.
  rewrite <- (sum_counts_perm buckets.*2) in Hpos by (by rewrite Hperm).
  assert (StronglySorted keyAscending buckets) as Hstrong.
  { apply (Sorted_StronglySorted keyAscending), Hsorted. }
  assert (Forall (λ b, 0 ≤ b.2) buckets) as Hall.
  { apply Forall_forall. intros [k c] Hin. rewrite Hperm in Hin.
    apply elem_of_map_to_list in Hin. cbn. by eapply Hnonneg. }
  assert (0 ≤ (numRequests - 1) `div` 2 ≤ (numRequests' - 1) `div` 2) as Hle.
  { split; [apply Z.div_pos; lia|]. apply Z.div_le_mono; lia. }
  assert ((numRequests' - 1) `div` 2 ≤ Int64.max_int) as Hmax'.
  { unfold Int64.max_int in *. apply Z.div_le_upper_bound; lia. }
  destruct (walkBuckets_mono buckets _ _ Hstrong Hall Hle Hmax' Hpos)
    as (k & k' & -> & -> & Hk).
  exact Hk.
Qed.

Lemma median_monotone_witness :
  ([300; 100; 200] ≡ₚ (map_to_list (<[100:=1]> (<[200:=1]> (<[300:=4]> (∅ : gmap Z Z))))).*1 ∧
   [200; 300; 100] ≡ₚ (map_to_list (<[100:=1]> (<[200:=1]> (<[300:=4]> (∅ : gmap Z Z))))).*1 ∧
   [(100, 1); (200, 1); (300, 4)] ≡ₚ
     map_to_list (<[100:=1]> (<[200:=1]> (<[300:=4]> (∅ : gmap Z Z)))) ∧
   Sorted keyAscending [(100, 1); (200, 1); (300, 4)] ∧
   (∀ k c, (<[100:=1]> (<[200:=1]> (<[300:=4]> (∅ : gmap Z Z)))) !! k = Some c → 0 ≤ c) ∧
   1 ≤ 2 ≤ 6 ∧ 6 ≤ Int64.max_int ∧
   (6 - 1) `div` 2 < totalCount (<[100:=1]> (<[200:=1]> (<[300:=4]> ∅)))) ∧
  getMedianResponseTimeIn [300; 100; 200] 2 (<[100:=1]> (<[200:=1]> (<[300:=4]> ∅))) ≤
  getMedianResponseTimeIn [200; 300; 100] 6 (<[100:=1]> (<[200:=1]> (<[300:=4]> ∅))).
Proof.
  assert (H1 : [300; 100; 200] ≡ₚ
                 (map_to_list (<[100:=1]> (<[200:=1]> (<[300:=4]> (∅ : gmap Z Z))))).*1).
  { apply (bool_decide_unpack _). vm_compute. exact I. }
  assert (H1' : [200; 300; 100] ≡ₚ
                 (map_to_list (<[100:=1]> (<[200:=1]> (<[300:=4]> (∅ : gmap Z Z))))).*1).
  { apply (bool_decide_unpack _). vm_compute. exact I. }
  assert (H2 : [(100, 1); (200, 1); (300, 4)] ≡ₚ
                 map_to_list (<[100:=1]> (<[200:=1]> (<[300:=4]> (∅ : gmap Z Z))))).
  { apply (bool_decide_unpack _). vm_compute. exact I. }
  assert (H3 : Sorted keyAscending [(100, 1); (200, 1); (300, 4)]).
  { apply (bool_decide_unpack _). vm_compute. exact I. }
  assert (H4 : ∀ k c, (<[100:=1]> (<[200:=1]> (<[300:=4]> (∅ : gmap Z Z)))) !! k = Some c
                      → 0 ≤ c).
  { intros k c Hk. apply elem_of_map_to_list in Hk. rewrite <- H2 in Hk.
    repeat (apply elem_of_cons in Hk as [[= -> ->]|Hk]; [lia|]).
    by apply elem_of_nil in Hk. }
  assert (H5 : 1 ≤ 2 ≤ 6) by lia.
  assert (H6 : 6 ≤ Int64.max_int) by (unfold Int64.max_int; lia).
  assert (H7 : (6 - 1) `div` 2 < totalCount (<[100:=1]> (<[200:=1]> (<[300:=4]> ∅)))).
  { vm_compute. reflexivity. }
  split; [auto 10|].
  exact (median_monotone _ _ _ _ _ _ H1 H1' H2 H3 H4 H5 H6 H7).
Defined.

(** ** Bounds on the integer quotients *)

(** X5. For a count that is not negative and a map that is not empty, the
    current rate is the floor of the mean per observed second: it lies
    between 0 and the count, and the count is at least the rate times the
    number of seconds and less than that plus one more second's worth. *)
Theorem current_rate_bounds (count : Z) (seconds : gmap Z Z) :
  0 ≤ count ≤ Int64.max_int → seconds ≠ ∅ →
  0 ≤ getCurrentRps count seconds ≤ count ∧
  getCurrentRps count seconds * Z.of_nat (size seconds) ≤ count
    < (getCurrentRps count seconds + 1) * Z.of_nat (size seconds) ∧
  getCurrentFailPerSec count seconds = getCurrentRps count seconds.
Proof.
  intros Hc Hne. split; [|split; [|reflexivity]].
  all: unfold getCurrentRps.
  all: assert (0 < len64 seconds) as Hlen
    by (unfold len64;
        assert (size seconds ≠ 0%nat) by (by rewrite map_size_empty_iff); lia).
  all: destruct (decide (len64 seconds ≠ 0)) as [_|?]; [|lia].
  all: rewrite div64_quot
    by (unfold Int64.in_range, Int64.min_int, Int64.max_int in *; lia).
  all: rewrite Z.quot_div_nonneg by lia.
  all: fold (len64 seconds).
  - split; [apply Z.div_pos; lia|]. apply Z.div_le_upper_bound; nia.
  - pose proof (Z.div_mod count (len64 seconds) ltac:(lia)).
    pose proof (Z.mod_pos_bound count (len64 seconds) Hlen). nia.
Qed.

Lemma current_rate_bounds_witness :
  (0 ≤ 41 ≤ Int64.max_int ∧
   (<[1:=7]> (<[2:=0]> (<[3:=9]> (<[5:=100]> ∅))) : gmap Z Z) ≠ ∅) ∧
  0 ≤ getCurrentRps 41 (<[1:=7]> (<[2:=0]> (<[3:=9]> (<[5:=100]> ∅)))) ≤ 41.
Proof.
  assert (H1 : 0 ≤ 41 ≤ Int64.max_int) by (unfold Int64.max_int; lia).
  assert (H2 : (<[1:=7]> (<[2:=0]> (<[3:=9]> (<[5:=100]> ∅))) : gmap Z Z) ≠ ∅).
  { apply (bool_decide_unpack _). vm_compute. exact I. }
  split; [auto|].
  exact (proj1 (current_rate_bounds 41 _ H1 H2)).
Defined.

(** X6. For a positive request count and a total that is not negative, the
    average content length is the floor of the mean: the total is at least
    the average times the request count and less than that plus one more
    request count. *)
Theorem avg_content_length_bounds (numRequests totalContentLength : Z) :
  0 < numRequests → 0 ≤ totalContentLength ≤ Int64.max_int →
  0 ≤ getAvgContentLength numRequests totalContentLength ≤ totalContentLength ∧
  getAvgContentLength numRequests totalContentLength * numRequests ≤ totalContentLength
    < (getAvgContentLength numRequests totalContentLength + 1) * numRequests.
Proof.
  intros Hn Ht. unfold getAvgContentLength.
  destruct (decide (numRequests ≠ 0)) as [_|?]; [|lia].
  rewrite div64_quot
    by (unfold Int64.in_range, Int64.min_int, Int64.max_int in *; lia).
  rewrite Z.quot_div_nonneg by lia.
  pose proof (Z.div_mod totalContentLength numRequests ltac:(lia)).
  pose proof (Z.mod_pos_bound totalContentLength numRequests Hn).
  assert (0 ≤ totalContentLength `div` numRequests) by (apply Z.div_pos; lia).
  nia.
Qed.

Lemma avg_content_length_bounds_witness :
  (0 < 4 ∧ 0 ≤ 10 ≤ Int64.max_int) ∧
  getAvgContentLength 4 10 * 4 ≤ 10 < (getAvgContentLength 4 10 + 1) * 4.
Proof.
  assert (H1 : 0 < 4) by lia.
  assert (H2 : 0 ≤ 10 ≤ Int64.max_int) by (unfold Int64.max_int; lia).
  split; [auto|].
  exact (proj2 (avg_content_length_bounds 4 10 H1 H2)).
Defined.

(** ** More on the decoder *)

Lemma deserializeStatsEntry_derived (stat : value) (entryOutput : statsEntryOutput) :
  deserializeStatsEntry stat = (Some entryOutput, None) →
  derivedFromCounters entryOutput.
Proof.
  unfold deserializeStatsEntry. intros Hd.
  destruct (Json.Marshal stat) as [statBytes|err]; [|discriminate].
  destruct (Decode.Unmarshal statBytes zeroStatsEntry) as [entry [err|]];
    [discriminate|].
  injection Hd as <-. by repeat split.
Qed.

(** X7. In a decoded snapshot the derived view of the total and of every group
    is computed from the counters of that same entry, and the total rate of
    the snapshot is the current rate of its total entry. *)
Theorem snapshot_derived_from_counters (data : gmap string value)
    (output : dataOutput) :
  convertData data = (Some output, None) →
  derivedFromCounters (TotalStats output) ∧
  Forall derivedFromCounters (Stats output) ∧
  TotalRPS output = currentRps (TotalStats output).
Proof.
  intros Hc.
  apply convertData_Some in Hc
    as (n & stats & _ & _ & _ & Ht & Hr & _ & _ & Hall).
  pose proof (deserializeStatsEntry_derived _ _ Ht) as Hd.
  split; [exact Hd|]. split.
  - clear -Hall. induction Hall as [|stat entry ? ? Hs _ IH]; constructor; [|done].
    by eapply deserializeStatsEntry_derived.
  - rewrite Hr. by destruct Hd as (_ & _ & _ & -> & _).
Qed.

Lemma snapshot_derived_from_counters_witness :
  ∃ output,
    convertData (<["user_count" := VInt32 2]>
                   (<["stats" := VSlice [VMap (<["num_requests" := VInt64 9]> ∅)]]> ∅)) =
      (Some output, None) ∧
    TotalRPS output = currentRps (TotalStats output) ∧
    Forall derivedFromCounters (Stats output).
Proof.
  destruct (convertData_cases
              (<["user_count" := VInt32 2]>
                 (<["stats" := VSlice [VMap (<["num_requests" := VInt64 9]> ∅)]]> ∅)))
    as [[output Hc]|[err Hc]].
  - exists output. split; [exact Hc|].
    destruct (snapshot_derived_from_counters _ _ Hc) as (_ & Hs & Hr). auto.
  - vm_compute in Hc. discriminate Hc.
Defined.

(** X8. [convertData] reads the keys [user_count], [stats] and [stats_total]
    and nothing else: two events that agree on these three keys give the
    same result, and the [Errors] of a snapshot stay nil whatever the event
    holds. *)
Theorem convertData_reads_three_keys (data data' : gmap string value) :
  data !! "user_count" = data' !! "user_count" →
  data !! "stats" = data' !! "stats" →
  data !! "stats_total" = data' !! "stats_total" →
  convertData data = convertData data' ∧
  (∀ output, convertData data = (Some output, None) → Errors output = ∅).
Proof.
  intros Hu Hs Ht. split.
  - unfold convertData. by rewrite Hu, Hs, Ht.
  - intros output Hc.
    by apply convertData_Some in Hc as (n & stats & _ & _ & _ & _ & _ & _ & He & _).
Qed.

Lemma convertData_reads_three_keys_witness :
  ((<["errors" := VMap (<["boom" := VInt 3]> ∅)]>
      (<["user_count" := VInt32 2]> (<["stats" := VSlice []]> ∅))
      : gmap string value) !! "user_count" =
     (<["user_count" := VInt32 2]> (<["stats" := VSlice []]> ∅)
      : gmap string value) !! "user_count" ∧
   (<["errors" := VMap (<["boom" := VInt 3]> ∅)]>
      (<["user_count" := VInt32 2]> (<["stats" := VSlice []]> ∅))
      : gmap string value) !! "stats" =
     (<["user_count" := VInt32 2]> (<["stats" := VSlice []]> ∅)
      : gmap string value) !! "stats" ∧
   (<["errors" := VMap (<["boom" := VInt 3]> ∅)]>
      (<["user_count" := VInt32 2]> (<["stats" := VSlice []]> ∅))
      : gmap string value) !! "stats_total" =
     (<["user_count" := VInt32 2]> (<["stats" := VSlice []]> ∅)
      : gmap string value) !! "stats_total") ∧
  convertData (<["errors" := VMap (<["boom" := VInt 3]> ∅)]>
                 (<["user_count" := VInt32 2]> (<["stats" := VSlice []]> ∅))) =
  convertData (<["user_count" := VInt32 2]> (<["stats" := VSlice []]> ∅)).
Proof.
  assert (H1 : (<["errors" := VMap (<["boom" := VInt 3]> ∅)]>
      (<["user_count" := VInt32 2]> (<["stats" := VSlice []]> ∅))
      : gmap string value) !! "user_count" =
     (<["user_count" := VInt32 2]> (<["stats" := VSlice []]> ∅)
      : gmap string value) !! "user_count").
  { vm_compute. reflexivity. }
  assert (H2 : (<["errors" := VMap (<["boom" := VInt 3]> ∅)]>
      (<["user_count" := VInt32 2]> (<["stats" := VSlice []]> ∅))
      : gmap string value) !! "stats" =
     (<["user_count" := VInt32 2]> (<["stats" := VSlice []]> ∅)
      : gmap string value) !! "stats").
  { vm_compute. reflexivity. }
  assert (H3 : (<["errors" := VMap (<["boom" := VInt 3]> ∅)]>
      (<["user_count" := VInt32 2]> (<["stats" := VSlice []]> ∅))
      : gmap string value) !! "stats_total" =
     (<["user_count" := VInt32 2]> (<["stats" := VSlice []]> ∅)
      : gmap string value) !! "stats_total").
  { vm_compute. reflexivity. }
  split; [auto|].
  exact (proj1 (convertData_reads_three_keys _ _ H1 H2 H3)).
Defined.

Lemma convertStats_first_error (before after : list value) (bad : value)
    (err : error) (output : dataOutput) :
  Forall (λ stat, (deserializeStatsEntry stat).2 = None) before →
  deserializeStatsEntry bad = (None, Some err) →
  convertStats (before ++ bad :: after) output = (None, Some err).
Proof.
  intros Hall Hbad. revert output.
  induction Hall as [|stat rest Hs _ IH]; intros output; cbn.
  - by rewrite Hbad.
  - destruct (deserializeStatsEntry_cases stat) as [[entry Hd]|[e Hd]];
      rewrite Hd in *; [apply IH|discriminate].
Qed.

(** X9. When the user count, the stats list and the total are in order, the
    error of [convertData] is the error of the first element of the list
    that does not decode; the elements after it play no part. *)
Theorem convertData_first_failing_element (data : gmap string value) (n : Z)
    (before after : list value) (bad : value) (err : error) :
  data !! "user_count" = Some (VInt32 n) →
  data !! "stats" = Some (VSlice (before ++ bad :: after)) →
  (deserializeStatsEntry (default VNil (data !! "stats_total"))).2 = None →
  Forall (λ stat, (deserializeStatsEntry stat).2 = None) before →
  deserializeStatsEntry bad = (None, Some err) →
  convertData data = (None, Some err).
Proof.
  intros Hu Hs Ht Hall Hbad. unfold convertData. rewrite Hu, Hs.
  destruct (deserializeStatsEntry_cases (default VNil (data !! "stats_total")))
    as [[entry Hd]|[e Hd]]; rewrite Hd in *; [|discriminate].
  by apply convertStats_first_error.
Qed.

Lemma convertData_first_failing_element_witness :
  ((<["user_count" := VInt32 2]>
      (<["stats" := VSlice ([VNil] ++ VBool true :: [VString "later"])]> ∅)
      : gmap string value) !! "user_count" = Some (VInt32 2) ∧
   (<["user_count" := VInt32 2]>
      (<["stats" := VSlice ([VNil] ++ VBool true :: [VString "later"])]> ∅)
      : gmap string value) !! "stats" =
     Some (VSlice ([VNil] ++ VBool true :: [VString "later"])) ∧
   (deserializeStatsEntry
      (default VNil
         ((<["user_count" := VInt32 2]>
             (<["stats" := VSlice ([VNil] ++ VBool true :: [VString "later"])]> ∅)
             : gmap string value) !! "stats_total"))).2 = None ∧
   Forall (λ stat, (deserializeStatsEntry stat).2 = None) [VNil] ∧
   deserializeStatsEntry (VBool true) = (None, Some (UnmarshalTypeError "bool" ""))) ∧
  convertData (<["user_count" := VInt32 2]>
                 (<["stats" := VSlice ([VNil] ++ VBool true :: [VString "later"])]> ∅)) =
    (None, Some (UnmarshalTypeError "bool" "")).
Proof.
  assert (H1 : (<["user_count" := VInt32 2]>
      (<["stats" := VSlice ([VNil] ++ VBool true :: [VString "later"])]> ∅)
      : gmap string value) !! "user_count" = Some (VInt32 2)).
  { vm_compute. reflexivity. }
  assert (H2 : (<["user_count" := VInt32 2]>
      (<["stats" := VSlice ([VNil] ++ VBool true :: [VString "later"])]> ∅)
      : gmap string value) !! "stats" =
     Some (VSlice ([VNil] ++ VBool true :: [VString "later"]))).
  { vm_compute. reflexivity. }
  assert (H3 : (deserializeStatsEntry
      (default VNil
         ((<["user_count" := VInt32 2]>
             (<["stats" := VSlice ([VNil] ++ VBool true :: [VString "later"])]> ∅)
             : gmap string value) !! "stats_total"))).2 = None).
  { vm_compute. reflexivity. }
  assert (H4 : Forall (λ stat, (deserializeStatsEntry stat).2 = None) [VNil]).
  { constructor; [vm_compute; reflexivity|constructor]. }
  assert (H5 : deserializeStatsEntry (VBool true) =
                 (None, Some (UnmarshalTypeError "bool" ""))).
  { vm_compute. reflexivity. }
  split; [auto 10|].
  exact (convertData_first_failing_element _ _ _ _ _ _ H1 H2 H3 H4 H5).
Defined.

(** ** More on the sinks *)

Lemma replay_app (g : gmap (string * list string) float) (es es' : list effect) :
  foldl applyEffect g (es ++ es') = foldl applyEffect (foldl applyEffect g es) es'.
Proof. apply foldl_app. Qed.

Lemma setStatGauges_replay (w : world) (stat : statsEntryOutput) :
  gauges (setStatGauges w stat) = foldl applyEffect (gauges w) (statGaugeUpdates stat).
Proof. reflexivity. Qed.

Lemma stat_gauges_replay (stats : list statsEntryOutput) (w : world) :
  gauges (foldl setStatGauges w stats) =
    foldl applyEffect (gauges w) (concat (statGaugeUpdates <$> stats)).
Proof.
  revert w. induction stats as [|stat rest IH]; intros w; [done|].
  rewrite fmap_cons. cbn [foldl concat].
  by rewrite IH, replay_app, setStatGauges_replay.
Qed.

(** What a tick of the pusher sink does when the event decodes. *)
Lemma pusher_tick_decoded (o : PrometheusPusherOutput) (push : option error)
    (data : gmap string value) (output : dataOutput) (w : world) :
  convertData data = (Some output, None) →
  trace (PrometheusPusherOutput_OnEvent o push data w) =
    trace w ++ snapshotGaugeUpdates output ++
    PushGateway push ::
      match push with
      | Some err => [LogPushError (pusherLogger o) err]
      | None => []
      end ∧
  gauges (PrometheusPusherOutput_OnEvent o push data w) =
    foldl applyEffect (gauges w) (snapshotGaugeUpdates output).
Proof.
  intros Hc. unfold PrometheusPusherOutput_OnEvent, snapshotGaugeUpdates. rewrite Hc.
  split.
  - destruct push; cbn; rewrite stat_gauges_trace; cbn; by rewrite <- !app_assoc.
  - rewrite replay_app. destruct push; cbn; by rewrite stat_gauges_replay.
Qed.

Lemma pusher_tick_failed (o : PrometheusPusherOutput) (push : option error)
    (data : gmap string value) (err : error) (w : world) :
  convertData data = (None, Some err) →
  PrometheusPusherOutput_OnEvent o push data w =
    emit (LogConvertError (pusherLogger o) err) w.
Proof. intros Hc. unfold PrometheusPusherOutput_OnEvent. by rewrite Hc. Qed.

(** Every update of an entry is a gauge update with the labels of the entry,
    on a collector that [OnStart] registers. *)
Lemma statGaugeUpdates_shape (stat : statsEntryOutput) :
  Forall (λ e, ∃ gauge v, e = GaugeSet gauge (statLabels stat) v ∧
                          gauge ∈ registeredCollectors)
    (statGaugeUpdates stat).
Proof.
  unfold statGaugeUpdates, setStatGauges, statLabels. cbn.
  repeat (constructor;
          [eexists _, _; split; [reflexivity|];
           apply (bool_decide_unpack _); vm_compute; exact I|]).
  constructor.
Qed.

(** Updates of other keys leave the value of a key alone. *)
Lemma replay_lookup_other (es : list effect) (g : gmap (string * list string) float)
    (key : string * list string) :
  Forall (λ e, ∀ gauge labels v, e = GaugeSet gauge labels v → (gauge, labels) ≠ key) es →
  foldl applyEffect g es !! key = g !! key.
Proof.
  intros Hall. revert g. induction Hall as [|e rest He _ IH]; intros g; [done|].
  cbn. rewrite IH. destruct e; cbn; try done.
  apply lookup_insert_ne. by eapply He.
Qed.



(** X11. The gauges a tick of the pusher sink leaves do not depend on how the
    push goes. When the event decodes, the tick sets gauges, then pushes
    once, then logs the error of the push if there is one; when it does
    not decode, the tick sets no gauge and does not push. *)
Theorem pusher_pushes_once_after_gauges (o : PrometheusPusherOutput)
    (push push' : option error) (data : gmap string value) (w : world) :
  gauges (PrometheusPusherOutput_OnEvent o push data w) =
    gauges (PrometheusPusherOutput_OnEvent o push' data w) ∧
  ∃ new,
    trace (PrometheusPusherOutput_OnEvent o push data w) = trace w ++ new ∧
    match (convertData data).2 with
    | None =>
        ∃ sets,
          Forall (λ e, isGaugeSet e = true) sets ∧
          new = sets ++ PushGateway push ::
                  match push with
                  | Some err => [LogPushError (pusherLogger o) err]
                  | None => []
                  end
    | Some err => new = [LogConvertError (pusherLogger o) err]
    end.
Proof.
  destruct (convertData_cases data) as [[output Hc]|[err Hc]].
  - destruct (pusher_tick_decoded o push data output w Hc) as [Ht Hg].
    destruct (pusher_tick_decoded o push' data output w Hc) as [_ Hg'].
    rewrite Hg, Hg', Ht, Hc. split; [reflexivity|].
    eexists. split; [reflexivity|]. cbn.
    exists (snapshotGaugeUpdates output). split; [|reflexivity].
    unfold snapshotGaugeUpdates. apply Forall_app. split; [by repeat constructor|].
    apply Forall_concat, Forall_fmap, Forall_forall. intros stat _.
    eapply Forall_impl; [apply statGaugeUpdates_shape|].
    by intros e (gauge & v & -> & _).
  - rewrite !(pusher_tick_failed _ _ _ _ _ Hc), Hc. split; [reflexivity|].
    eexists. split; reflexivity.
Qed.

Lemma snapshot_updates_other (output : dataOutput) (gauge : string)
    (labels : list string) :
  labels ≠ [] →
  Forall (λ stat, statLabels stat ≠ labels) (Stats output) →
  Forall (λ e, ∀ gauge' labels' v, e = GaugeSet gauge' labels' v →
                 (gauge', labels') ≠ (gauge, labels))
    (snapshotGaugeUpdates output).
Proof.
  intros Hne Hall. unfold snapshotGaugeUpdates. apply Forall_app. split.
  - repeat constructor; intros ? ? ? [= <- <- <-] [= _ <-]; done.
  - apply Forall_concat, Forall_fmap.
    eapply Forall_impl; [exact Hall|]. intros stat Hstat. cbn.
    eapply Forall_impl; [apply statGaugeUpdates_shape|].
    intros e (g & v & -> & _) ? ? ? [= <- <- <-] Heq. apply Hstat. congruence.
Qed.

(** X12. A tick of the pusher sink never removes a gauge, and it leaves the
    value of every labelled gauge whose labels are not the method and name
    of an entry of the decoded snapshot: the gauges of a group that is no
    longer reported keep their last values. *)
Theorem pusher_keeps_other_gauges (o : PrometheusPusherOutput)
    (push : option error) (data : gmap string value) (w : world)
    (gauge : string) (labels : list string) :
  labels ≠ [] →
  (∀ output, convertData data = (Some output, None) →
     Forall (λ stat, statLabels stat ≠ labels) (Stats output)) →
  gauges (PrometheusPusherOutput_OnEvent o push data w) !! (gauge, labels) =
    gauges w !! (gauge, labels) ∧
  (∀ key, is_Some (gauges w !! key) →
          is_Some (gauges (PrometheusPusherOutput_OnEvent o push data w) !! key)).
Proof.
  intros Hne Hother.
  destruct (convertData_cases data) as [[output Hc]|[err Hc]].
  - destruct (pusher_tick_decoded o push data output w Hc) as [_ ->]. split.
    + apply replay_lookup_other, snapshot_updates_other; [done|by apply Hother].
    + intros key. generalize (gauges w). generalize (snapshotGaugeUpdates output).
      induction l as [|e es IH]; intros g Hg; [done|].
      cbn. apply IH. destruct e; cbn; try done.
      rewrite lookup_insert. by case_decide.
  - rewrite (pusher_tick_failed _ _ _ _ _ Hc). by split.
Qed.

Lemma pusher_keeps_other_gauges_witness :
  (["GET"; "/old"] ≠ [] ∧
   (∀ output,
      convertData (<["user_count" := VInt32 1]>
                     (<["stats" := VSlice [VMap (<["name" := VString "/new"]> ∅)]]> ∅)) =
        (Some output, None) →
      Forall (λ stat, statLabels stat ≠ ["GET"; "/old"]) (Stats output))) ∧
  gauges (PrometheusPusherOutput_OnEvent (NewPrometheusPusherOutput "http://gw" "job")
            None
            (<["user_count" := VInt32 1]>
               (<["stats" := VSlice [VMap (<["name" := VString "/new"]> ∅)]]> ∅))
            {| gauges := {[ (gaugeNumRequests, ["GET"; "/old"]) := 5%float ]};
               trace := [] |})
    !! (gaugeNumRequests, ["GET"; "/old"]) = Some 5%float.
Proof.
  assert (H1 : ["GET"; "/old"] ≠ ([] : list string)) by discriminate.
  assert (H2 : ∀ output,
      convertData (<["user_count" := VInt32 1]>
                     (<["stats" := VSlice [VMap (<["name" := VString "/new"]> ∅)]]> ∅)) =
        (Some output, None) →
      Forall (λ stat, statLabels stat ≠ ["GET"; "/old"]) (Stats output)).
  { intros output Hc. vm_compute in Hc. injection Hc as <-.
    constructor; [|constructor]. vm_compute. discriminate. }
  split; [auto|].
  rewrite (proj1 (pusher_keeps_other_gauges _ None _
                    {| gauges := {[ (gaugeNumRequests, ["GET"; "/old"]) := 5%float ]};
                       trace := [] |} gaugeNumRequests _ H1 H2)).
  cbn. apply lookup_singleton_eq.
Defined.



(** An update of a key is absorbed by a later update of the same key. *)
Lemma replay_absorb (es : list effect) (g : gmap (string * list string) float)
    (key : string * list string) (v v' : float) :
  <[key := v]> (foldl applyEffect (<[key := v']> g) es) =
  <[key := v]> (foldl applyEffect g es).
Proof.
  revert g. induction es as [|e es IH]; intros g; cbn.
  - apply insert_insert_eq.
  - destruct e; cbn; try apply IH.
    destruct (decide ((gauge, labels) = key)) as [->|Hne].
    + by rewrite insert_insert_eq.
    + rewrite insert_insert_ne by done. apply IH.
Qed.

Lemma replay_idempotent (es : list effect) (g : gmap (string * list string) float) :
  foldl applyEffect (foldl applyEffect g es) es = foldl applyEffect g es.
Proof.
  revert g. induction es as [|e es IH] using rev_ind; intros g; [done|].
  rewrite !replay_app. cbn. destruct e; cbn; rewrite ?IH; try done.
  by rewrite replay_absorb, IH.
Qed.

(** X14. Delivering the same event twice leaves the gauges that delivering it
    once leaves, however the pushes go: a tick overwrites gauges and never
    accumulates into them. *)
Theorem pusher_tick_idempotent (o : PrometheusPusherOutput)
    (push push' : option error) (data : gmap string value) (w : world) :
  gauges (PrometheusPusherOutput_OnEvent o push' data
            (PrometheusPusherOutput_OnEvent o push data w)) =
  gauges (PrometheusPusherOutput_OnEvent o push data w).
Proof.
  destruct (convertData_cases data) as [[output Hc]|[err Hc]].
  - destruct (pusher_tick_decoded o push' data output
                (PrometheusPusherOutput_OnEvent o push data w) Hc) as [_ ->].
    destruct (pusher_tick_decoded o push data output w Hc) as [_ ->].
    apply replay_idempotent.
  - by rewrite !(pusher_tick_failed _ _ _ _ _ Hc).
Qed.

(** X15. Every gauge a tick of the pusher sink sets is one of the twelve
    collectors that [OnStart] registers, and these have pairwise distinct
    names. *)
Theorem pusher_sets_registered_gauges (o : PrometheusPusherOutput)
    (push : option error) (data : gmap string value) (w : world) :
  NoDup registeredCollectors ∧ length registeredCollectors = 12%nat ∧
  ∃ new,
    trace (PrometheusPusherOutput_OnEvent o push data w) = trace w ++ new ∧
    Forall (λ e, ∀ gauge labels v, e = GaugeSet gauge labels v →
                   gauge ∈ registeredCollectors) new.
Proof.
  split; [apply (bool_decide_unpack _); vm_compute; exact I|].
  split; [reflexivity|].
  destruct (convertData_cases data) as [[output Hc]|[err Hc]].
  - destruct (pusher_tick_decoded o push data output w Hc) as [-> _].
    eexists. split; [reflexivity|].
    apply Forall_app. split.
    + unfold snapshotGaugeUpdates. apply Forall_app. split.
      * apply Forall_forall. intros e He gauge labels v ->.
        repeat (apply elem_of_cons in He as [[= -> -> ->]|He];
                [apply (bool_decide_unpack _); vm_compute; exact I|]).
        by apply elem_of_nil in He.
      * apply Forall_concat, Forall_fmap, Forall_forall. intros stat _.
        eapply Forall_impl; [apply statGaugeUpdates_shape|].
        by intros e (g & v & -> & Hg) ? ? ? [= <- <- <-].
    + destruct push; repeat constructor; intros; discriminate.
  - rewrite (pusher_tick_failed _ _ _ _ _ Hc). eexists. split; [reflexivity|].
    repeat constructor. intros; discriminate.
Qed.

(** X16. [WithLogger] with a nil logger gives back the sink as it is; with a
    logger it redirects every line a later tick logs to that logger, and
    changes nothing in the gauges the tick leaves. A new sink logs to the
    standard logger. *)
Theorem WithLogger_redirects_logs (c : ConsoleOutput) (p : PrometheusPusherOutput)
    (l : Logger) (now : Z) (push : option error) (data : gmap string value)
    (w : world) :
  ConsoleOutput_WithLogger c None = c ∧
  PrometheusPusherOutput_WithLogger p None = p ∧
  consoleLogger NewConsoleOutput = logDefault ∧
  (∃ new,
     trace (ConsoleOutput_OnEvent (ConsoleOutput_WithLogger c (Some l)) now data w) =
       trace w ++ new ∧
     Forall (λ e, effectLogger e = Some l) new) ∧
  (∃ new,
     trace (PrometheusPusherOutput_OnEvent
              (PrometheusPusherOutput_WithLogger p (Some l)) push data w) =
       trace w ++ new ∧
     Forall (λ e, effectLogger e = Some l ∨ effectLogger e = None) new) ∧
  gauges (PrometheusPusherOutput_OnEvent
            (PrometheusPusherOutput_WithLogger p (Some l)) push data w) =
    gauges (PrometheusPusherOutput_OnEvent p push data w).
Proof.
  repeat (split; [reflexivity|]). split; [|split].
  - unfold ConsoleOutput_OnEvent.
    destruct (convertData_cases data) as [[output ->]|[err ->]]; cbn.
    + eexists. rewrite <- !app_assoc. cbn. split; [reflexivity|].
      by repeat constructor.
    + eexists. split; [reflexivity|]. by repeat constructor.
  - destruct (convertData_cases data) as [[output Hc]|[err Hc]].
    + destruct (pusher_tick_decoded (PrometheusPusherOutput_WithLogger p (Some l))
                  push data output w Hc) as [-> _].
      eexists. split; [reflexivity|]. apply Forall_app. split.
      * unfold snapshotGaugeUpdates. apply Forall_app. split; [by repeat constructor|].
        apply Forall_concat, Forall_fmap, Forall_forall. intros stat _.
        eapply Forall_impl; [apply statGaugeUpdates_shape|].
        intros e (g & v & -> & _). by right.
      * destruct push.
        -- apply Forall_cons. split; [by right|].
           apply Forall_cons. split; [by left|constructor].
        -- apply Forall_cons. split; [by right|constructor].
    + rewrite (pusher_tick_failed _ _ _ _ _ Hc). eexists. split; [reflexivity|].
      apply Forall_cons. split; [by left|constructor].
  - destruct (convertData_cases data) as [[output Hc]|[err Hc]].
    + destruct (pusher_tick_decoded (PrometheusPusherOutput_WithLogger p (Some l))
                  push data output w Hc) as [_ ->].
      by destruct (pusher_tick_decoded p push data output w Hc) as [_ ->].
    + by rewrite !(pusher_tick_failed _ _ _ _ _ Hc).
Qed.

(** ** Decoding a report entry *)











Local Arguments Decode.storeInt64 : simpl never.
Local Arguments Decode.storeMapMembers : simpl never.
Local Arguments Decode.findField : simpl never.









(** ** Members that name no field *)

Lemma string_leb_trans (a b c : string) :
  String.leb a b = true → String.leb b c = true → String.leb a c = true.
Proof.
  unfold String.leb.
  assert (∀ a b c, String.compare a b ≠ Gt → String.compare b c ≠ Gt →
                   String.compare a c ≠ Gt) as Htrans.
  { clear. induction a as [|x a IH]; intros [|y b] [|z c]; cbn; try done.
    unfold Ascii.compare.
    destruct (N.compare_spec (N_of_ascii x) (N_of_ascii y)) as [Hxy|Hxy|Hxy];
      destruct (N.compare_spec (N_of_ascii y) (N_of_ascii z)) as [Hyz|Hyz|Hyz];
      destruct (N.compare_spec (N_of_ascii x) (N_of_ascii z)) as [Hxz|Hxz|Hxz];
      try done; try lia.
    apply IH. }
  intros Hab Hbc. specialize (Htrans a b c).
  destruct (String.compare a b), (String.compare b c), (String.compare a c);
    try done; exfalso; by apply Htrans.
Qed.

Local Instance key_res_le_trans : Transitive Json.key_res_le.
Proof. intros x y z. apply string_leb_trans. Qed.

Local Instance key_res_le_total : Total Json.key_res_le.
Proof. intros x y. apply String.leb_total. Qed.

Lemma StronglySorted_filter_keep {A} (R : relation A) (P : A → Prop)
    `{∀ x, Decision (P x)} (l : list A) :
  StronglySorted R l → StronglySorted R (filter P l).
Proof.
  induction 1 as [|x l Hl IH Hx]; [constructor|].
  rewrite filter_cons. case_decide; [|done].
  constructor; [done|]. apply Forall_forall. intros y Hy.
  apply list_elem_of_filter in Hy as [_ Hy]. rewrite Forall_forall in Hx. by apply Hx.
Qed.

Lemma filter_all {A} (P : A → Prop) `{∀ x, Decision (P x)} (l : list A) :
  Forall P l → filter P l = l.
Proof.
  induction 1 as [|x l Hx _ IH]; [done|].
  by rewrite filter_cons, decide_True, IH.
Qed.

(** The sorted members of a map with one more key are the sorted members of
    the map, with the member of that key somewhere in between. *)
Lemma sorted_members_insert (results : gmap string (result Json.json)) (k : string)
    (r : result Json.json) :
  results !! k = None →
  filter (λ member, member.1 ≠ k)
    (merge_sort Json.key_res_le (map_to_list (<[k := r]> results))) =
  merge_sort Json.key_res_le (map_to_list results).
Proof.
  intros Hk.
  assert (filter (λ member : string * result Json.json, member.1 ≠ k)
            (merge_sort Json.key_res_le (map_to_list (<[k := r]> results))) ≡ₚ
          map_to_list results) as Hperm.
  { rewrite merge_sort_Permutation, map_to_list_insert by done.
    rewrite filter_cons. cbn. rewrite decide_False by (intros Hne; by apply Hne).
    rewrite filter_all; [done|]. apply Forall_forall.
    intros [k' r'] Hin Heq. cbn in Heq. subst k'.
    apply elem_of_map_to_list in Hin. congruence. }
  apply (StronglySorted_unique_strong Json.key_res_le).
  - intros [k1 r1] [k2 r2] H1 H2 Hle Hge.
    assert (k1 = k2) as <- by (by apply String.leb_antisym).
    rewrite Hperm in H1. rewrite merge_sort_Permutation in H2.
    apply elem_of_map_to_list in H1, H2. congruence.
  - apply StronglySorted_filter_keep, StronglySorted_merge_sort; apply _.
  - apply StronglySorted_merge_sort; apply _.
  - by rewrite Hperm, merge_sort_Permutation.
Qed.

Lemma sequenceMembers_filter (k : string) (ms : list (string * result Json.json)) :
  Forall (λ member, member.1 = k → ∃ j, member.2 = Ok j) ms →
  match Json.sequenceMembers ms,
        Json.sequenceMembers (filter (λ member, member.1 ≠ k) ms) with
  | Ok all, Ok kept => filter (λ member, member.1 ≠ k) all = kept
  | Err e, Err e' => e = e'
  | _, _ => False
  end.
Proof.
  induction 1 as [|[k' r] ms Hr _ IH]; [done|].
  rewrite filter_cons. cbn [fst]. destruct (decide (k' ≠ k)) as [Hne|Heq].
  - cbn. destruct r as [j|e]; [|done].
    destruct (Json.sequenceMembers ms) as [all|e],
             (Json.sequenceMembers (filter _ ms)) as [kept|e']; try done.
    rewrite filter_cons. cbn [fst]. by rewrite decide_True, IH.
  - apply dec_stable in Heq. destruct (Hr Heq) as [j Hj]. cbn in Hj. subst r.
    cbn. destruct (Json.sequenceMembers ms) as [all|e],
             (Json.sequenceMembers (filter _ ms)) as [kept|e']; try done.
    rewrite filter_cons. cbn [fst]. rewrite decide_False; [done|].
    intros Hne. by apply Hne.
Qed.

Lemma storeMembers_filter (k : string) (members : list (string * Json.json))
    (x : statsEntry) (saved : option error) :
  Decode.findField k = None →
  Decode.storeMembers members x saved =
  Decode.storeMembers (filter (λ member, member.1 ≠ k) members) x saved.
Proof.
  intros Hk. revert x saved.
  induction members as [|[k' j] rest IH]; intros x saved; [done|].
  rewrite filter_cons. cbn [fst]. destruct (decide (k' ≠ k)) as [Hne|Heq].
  - cbn [Decode.storeMembers]. destruct (Decode.findField k') as [f|]; [|apply IH].
    destruct (Decode.storeField f j x) as [x' e]. apply IH.
  - apply dec_stable in Heq. subst k'. cbn [Decode.storeMembers]. rewrite Hk. apply IH.
Qed.

Lemma Marshal_VMap (entries : gmap string value) :
  Json.Marshal (VMap entries) =
    match Json.sequenceMembers
            (merge_sort Json.key_res_le (map_to_list (Json.Marshal <$> entries))) with
    | Ok ms => Ok (Json.JObject ms)
    | Err e => Err e
    end.
Proof. reflexivity. Qed.

(** X19. A member that names no field of [statsEntry] and that can be marshalled
    makes no difference: the map with it decodes as the map without it. *)
Theorem unknown_member_is_ignored (entries : gmap string value) (k : string)
    (v : value) (j : Json.json) :
  entries !! k = None →
  Decode.findField k = None →
  Json.Marshal v = Ok j →
  deserializeStatsEntry (VMap (<[k := v]> entries)) =
  deserializeStatsEntry (VMap entries).
Proof.
  intros Hk Hfield Hv. unfold deserializeStatsEntry.
  rewrite !Marshal_VMap, fmap_insert, Hv.
  pose proof (sorted_members_insert (Json.Marshal <$> entries) k (Ok j)) as Hsorted.
  rewrite lookup_fmap, Hk in Hsorted. specialize (Hsorted eq_refl).
  pose proof (sequenceMembers_filter k
    (merge_sort Json.key_res_le (map_to_list (<[k := Ok j]> (Json.Marshal <$> entries)))))
    as Hseq.
  rewrite Hsorted in Hseq.
  destruct (Json.sequenceMembers
              (merge_sort Json.key_res_le
                 (map_to_list (<[k := Ok j]> (Json.Marshal <$> entries))))) as [all|e],
           (Json.sequenceMembers
              (merge_sort Json.key_res_le (map_to_list (Json.Marshal <$> entries))))
    as [kept|e'].
  - rewrite <- Hseq.
    + cbn [Decode.Unmarshal]. by rewrite (storeMembers_filter k all _ _ Hfield).
    + apply Forall_forall. intros [k' r] Hin Heq. cbn in Heq. subst k'.
      rewrite merge_sort_Permutation in Hin. apply elem_of_map_to_list in Hin.
      rewrite lookup_insert_eq in Hin. injection Hin as <-. by exists j.
  - exfalso. apply Hseq. apply Forall_forall. intros [k' r] Hin Heq. cbn in Heq. subst k'.
    rewrite merge_sort_Permutation in Hin. apply elem_of_map_to_list in Hin.
    rewrite lookup_insert_eq in Hin. injection Hin as <-. by exists j.
  - exfalso. apply Hseq. apply Forall_forall. intros [k' r] Hin Heq. cbn in Heq. subst k'.
    rewrite merge_sort_Permutation in Hin. apply elem_of_map_to_list in Hin.
    rewrite lookup_insert_eq in Hin. injection Hin as <-. by exists j.
  - rewrite Hseq; [done|].
    apply Forall_forall. intros [k' r] Hin Heq. cbn in Heq. subst k'.
    rewrite merge_sort_Permutation in Hin. apply elem_of_map_to_list in Hin.
    rewrite lookup_insert_eq in Hin. injection Hin as <-. by exists j.
Qed.

Lemma unknown_member_is_ignored_witness :
  ((<["num_requests" := VInt64 9]> ∅ : gmap string value) !! "comment" = None ∧
   Decode.findField "comment" = None ∧
   Json.Marshal (VString "warm-up") = Ok (Json.JString "warm-up")) ∧
  deserializeStatsEntry
    (VMap (<["comment" := VString "warm-up"]> (<["num_requests" := VInt64 9]> ∅))) =
  deserializeStatsEntry (VMap (<["num_requests" := VInt64 9]> ∅)).
Proof.
  assert (H1 : (<["num_requests" := VInt64 9]> ∅ : gmap string value)
                 !! "comment" = None).
  { vm_compute. reflexivity. }
  assert (H2 : Decode.findField "comment" = None).
  { vm_compute. reflexivity. }
  assert (H3 : Json.Marshal (VString "warm-up") = Ok (Json.JString "warm-up")).
  { reflexivity. }
  split; [auto|].
  exact (unknown_member_is_ignored _ _ _ _ H1 H2 H3).
Defined.
